(** * H.265 Annex-B framing and RTP payload packetization (modules/avcodec/h265.c)

    A shallow embedding of the start-code scanner, the start-code skipper
    and the payload packetizer, together with the properties of the
    natural-language specification that concern them.

    Conventions.  Pointers are addresses in [Z]; the byte buffer handed to
    the code is a [mem]: a base address and the bytes stored from there on.
    A read outside the buffer is a [Fault]; loops take fuel and report
    [OutOfFuel] when it is used up, so that "the call returns" is a theorem
    and not a convention.  [size_t] is 64 bits wide and its wrap-around is
    written out. *)

From Stdlib Require Import ZArith List Bool Lia.
From Stdlib Require Import Strings.Byte.
Import ListNotations.
Local Open Scope Z_scope.

(** ** Outcomes of a run *)

Inductive outcome (A : Type) : Type :=
| Done (a : A)
| Fault (addr : Z)
| OutOfFuel.

Arguments Done {A} a.
Arguments Fault {A} addr.
Arguments OutOfFuel {A}.

Definition obind {A B : Type} (c : outcome A) (k : A -> outcome B) : outcome B :=
  match c with
  | Done a => k a
  | Fault addr => Fault addr
  | OutOfFuel => OutOfFuel
  end.

Notation "x <- c ;; k" := (obind c (fun x => k))
  (at level 61, c at next level, right associativity).

(** ** The byte buffer *)

Record mem : Type := Mem {
  base : Z;               (* address of the first byte *)
  data : list byte;       (* the bytes of the buffer *)
  big_endian : bool       (* byte order of the machine's 32-bit loads *)
}.

Definition mem_len (m : mem) : Z := Z.of_nat (length (data m)).
Definition mem_end (m : mem) : Z := base m + mem_len m.

Definition byte_val (b : byte) : Z := Z.of_N (Byte.to_N b).

Definition in_bounds (m : mem) (a : Z) : bool :=
  (base m <=? a) && (a <? mem_end m).

(** The byte stored at address [a]; [x00] stands for "no byte there" and is
    only ever consulted, by the specification side, at checked addresses. *)
Definition byte_at (m : mem) (a : Z) : Z :=
  byte_val (nth (Z.to_nat (a - base m)) (data m) x00).

(** [p[i]] as the code reads it. *)
Definition load8 (m : mem) (a : Z) : outcome Z :=
  if in_bounds m a then Done (byte_at m a) else Fault a.

(** [*(const uint32_t * )p]: four bytes, in the machine's byte order. *)
Definition word_of (b0 b1 b2 b3 : Z) : Z :=
  b0 + Z.shiftl b1 8 + Z.shiftl b2 16 + Z.shiftl b3 24.

Definition load32 (m : mem) (a : Z) : outcome Z :=
  b0 <- load8 m a ;;
  b1 <- load8 m (a + 1) ;;
  b2 <- load8 m (a + 2) ;;
  b3 <- load8 m (a + 3) ;;
  Done (if big_endian m then word_of b3 b2 b1 b0 else word_of b0 b1 b2 b3).

(** ** h265_find_startcode *)

Definition u32 (x : Z) : Z := x mod 2 ^ 32.

(** [(x - 0x01010101) & (~x) & 0x80808080] on [uint32_t]. *)
Definition zero_byte_test (x : Z) : Z :=
  Z.land (Z.land (u32 (x - 0x01010101)) (u32 (Z.lnot x))) 0x80808080.

(** [p[i] == u && p[j] == v], the second read only after the first test. *)
Definition both (m : mem) (p i u j v : Z) : outcome bool :=
  x <- load8 m (p + i) ;;
  if x =? u then (y <- load8 m (p + j) ;; Done (y =? v)) else Done false.

(** [p[0] == 0 && p[1] == 0 && p[2] == 1]. *)
Definition sc3_here (m : mem) (p : Z) : outcome bool :=
  x <- load8 m p ;;
  if x =? 0 then both m p 1 0 2 1 else Done false.

(** How a loop of the scanner is left: by [return q] or by falling through
    with the cursor at [p]. *)
Inductive loop_exit : Type :=
| Return (q : Z)
| Fall (p : Z).

(** [for (...; p < a && p < end; p++) if (...) return p;]
    The third loop is the same with no [a]; it is run with [a = end]. *)
Fixpoint scan_bytes (fuel : nat) (m : mem) (p a e : Z) : outcome loop_exit :=
  if (p <? a) && (p <? e) then
    match fuel with
    | O => OutOfFuel
    | S fuel' =>
        hit <- sc3_here m p ;;
        if hit : bool then Done (Return p) else scan_bytes fuel' m (p + 1) a e
    end
  else Done (Fall p).

(** The body of the word loop on a word that passed the zero-byte test. *)
Definition probe_word (m : mem) (p : Z) : outcome (option Z) :=
  p1 <- load8 m (p + 1) ;;
  r <- (if p1 =? 0 then
          h0 <- both m p 0 0 2 1 ;;
          if h0 : bool then Done (Some p) else
          h1 <- both m p 2 0 3 1 ;;
          if h1 : bool then Done (Some (p + 1)) else Done None
        else Done None) ;;
  match r with
  | Some q => Done (Some q)
  | None =>
      p3 <- load8 m (p + 3) ;;
      if p3 =? 0 then
        h2 <- both m p 2 0 4 1 ;;
        if h2 : bool then Done (Some (p + 2)) else
        h3 <- both m p 4 0 5 1 ;;
        if h3 : bool then Done (Some (p + 3)) else Done None
      else Done None
  end.

(** [for (...; p < end; p += 4) { x = *(uint32_t * )p; if (test x) {...} }] *)
Fixpoint scan_words (fuel : nat) (m : mem) (p e : Z) : outcome loop_exit :=
  if p <? e then
    match fuel with
    | O => OutOfFuel
    | S fuel' =>
        x <- load32 m p ;;
        r <- (if zero_byte_test x =? 0 then Done None else probe_word m p) ;;
        match r with
        | Some q => Done (Return q)
        | None => scan_words fuel' m (p + 4) e
        end
    end
  else Done (Fall p).

Definition h265_find_startcode (fuel : nat) (m : mem) (p e : Z) : outcome Z :=
  let a := p + 4 - Z.land p 3 in
  let e := e - 3 in
  x1 <- scan_bytes fuel m p a e ;;
  match x1 with
  | Return q => Done q
  | Fall p =>
      let e := e - 3 in
      x2 <- scan_words fuel m p e ;;
      match x2 with
      | Return q => Done q
      | Fall p =>
          let e := e + 3 in
          x3 <- scan_bytes fuel m p e e ;;
          match x3 with
          | Return q => Done q
          | Fall _ => Done (e + 3)
          end
      end
  end.

Definition mem_of (a : Z) (l : list byte) : mem := Mem a l false.


(** ** h265_skip_startcode and h265_have_startcode *)

Definition usize (x : Z) : Z := x mod 2 ^ 64.
Definition u8 (x : Z) : Z := x mod 2 ^ 8.

Definition sc3 : list Z := [0; 0; 1].
Definition sc4 : list Z := [0; 0; 0; 1].

(** [0 == memcmp(p, pat, n)] with [n] the length of [pat]: every one of the
    [n] bytes at [p] belongs to the compared object and is read. *)
Fixpoint memcmp_eq (m : mem) (p : Z) (pat : list Z) : outcome bool :=
  match pat with
  | [] => Done true
  | c :: pat' =>
      x <- load8 m p ;;
      r <- memcmp_eq m (p + 1) pat' ;;
      Done ((x =? c) && r)
  end.

(** The in-out arguments [*p] and [*n] go in as [p] and [n] and come back as
    the pair. *)
Definition h265_skip_startcode (m : mem) (p n : Z) : outcome (Z * Z) :=
  if n <? 4 then Done (p, n) else
  is4 <- memcmp_eq m p sc4 ;;
  if is4 : bool then Done (p + 4, usize (n - 4)) else
  is3 <- memcmp_eq m p sc3 ;;
  if is3 : bool then Done (p + 3, usize (n - 3)) else Done (p, n).

Definition h265_have_startcode (m : mem) (p len : Z) : outcome bool :=
  r4 <- (if 4 <=? len then memcmp_eq m p sc4 else Done false) ;;
  if r4 : bool then Done true else
  r3 <- (if 3 <=? len then memcmp_eq m p sc3 else Done false) ;;
  if r3 : bool then Done true else Done false.

(** ** The packetizer *)

Record h265_nal : Type := Nal {
  nal_unit_type : Z;
  nuh_temporal_id_plus1 : Z
}.

(** One call of the packet handler: [pkth(marker, rtp_ts, hdr, hdr_len, pld,
    pld_len, arg)].  [hdr] holds the [hdr_len] bytes found at the header
    pointer when the call is made ([[]] for [NULL, 0]); the payload stays a
    view into the buffer. *)
Record packet : Type := Packet {
  marker : bool;
  rtp_ts : Z;
  hdr : list Z;
  pld : Z;
  pld_len : Z
}.

(** Modelled from the spec: the declarations of h26x.h, which is not part of
    the sources at hand.  The unit-header codec works on the two header
    bytes ("decode(2 bytes) -> header fields; encode(header fields) -> 2
    bytes"); decoding reports an error code, 0 for success. *)
Class H26x : Type := {
  h265_nal_decode : Z -> Z -> Z * h265_nal;
  h265_nal_encode : Z -> Z -> Z * Z;
  H265_NAL_FU : Z
}.

(** The packet handler with its opaque argument: a transition on the state
    behind [arg] that also yields the handler's return value. *)
Class Sink (St : Type) : Type := {
  pkth : St -> packet -> Z * St
}.

(** The state of the receiving side, with the handler calls made so far and
    what each returned. *)
Record world (St : Type) : Type := World {
  sink : St;
  sent : list (packet * Z)
}.

Arguments World {St} sink sent.
Arguments sink {St} w.
Arguments sent {St} w.

Section Packetizer.

Context {codec : H26x} {St : Type} {handler : Sink St}.

Definition call_pkth (pk : packet) (w : world St) : Z * world St :=
  let (e, s) := pkth (sink w) pk in
  (e, World s (sent w ++ [(pk, e)])).

(** [while (len > flen) { err |= pkth(false, ...); buf += flen; len -= flen;
    fu_hdr[2] &= ~(1 << 7); }] *)
Fixpoint fu_loop (fuel : nat) (rtp_ts h0 h1 flen : Z)
    (err buf len h2 : Z) (w : world St) : outcome (Z * Z * Z * Z * world St) :=
  if flen <? len then
    match fuel with
    | O => OutOfFuel
    | S fuel' =>
        let (e, w') := call_pkth (Packet false rtp_ts [h0; h1; h2] buf flen) w in
        fu_loop fuel' rtp_ts h0 h1 flen
          (Z.lor err e) (buf + flen) (usize (len - flen))
          (u8 (Z.land h2 (Z.lnot (Z.shiftl 1 7)))) w'
    end
  else Done (err, buf, len, h2, w).

Definition packetize (fuel : nat) (marker : bool) (m : mem)
    (buf len maxlen rtp_ts : Z)
    (w : world St) : outcome (Z * world St) :=
  if len <=? maxlen then
    let (e, w') := call_pkth (Packet marker rtp_ts [] buf len) w in
    Done (e, w')
  else
    let flen := usize (maxlen - 3) in
    b0 <- load8 m buf ;;
    b1 <- load8 m (buf + 1) ;;
    let (err, nal) := h265_nal_decode b0 b1 in
    if negb (err =? 0) then Done (err, w) else
    let (h0, h1) := h265_nal_encode H265_NAL_FU (nuh_temporal_id_plus1 nal) in
    let h2 := u8 (Z.lor (Z.shiftl 1 7) (nal_unit_type nal)) in
    let buf := buf + 2 in
    let len := usize (len - 2) in
    st <- fu_loop fuel rtp_ts h0 h1 flen err buf len h2 w ;;
    let '(err, buf, len, h2, w) := st in
    let h2 := u8 (Z.lor h2 (Z.shiftl 1 6)) in
    let (e, w') := call_pkth (Packet marker rtp_ts [h0; h1; h2] buf len) w in
    Done (Z.lor err e, w').

(** [while (!*(r++)) ;] *)
Fixpoint skip_zeros (fuel : nat) (m : mem) (r : Z) : outcome Z :=
  match fuel with
  | O => OutOfFuel
  | S fuel' =>
      b <- load8 m r ;;
      if b =? 0 then skip_zeros fuel' m (r + 1) else Done (r + 1)
  end.

(** The [while (r < end)] loop of [h265_packetize]; [k] is the fuel handed to
    the loops inside one round. *)
Fixpoint nal_loop (k fuel : nat) (rtp_ts : Z) (m : mem) (e pktsize : Z)
    (r err : Z) (w : world St) : outcome (Z * world St) :=
  if r <? e then
    match fuel with
    | O => OutOfFuel
    | S fuel' =>
        r <- skip_zeros k m r ;;
        r1 <- h265_find_startcode k m r e ;;
        let marker := e <=? r1 in
        x <- packetize k marker m r (usize (r1 - r)) pktsize rtp_ts w ;;
        let (e1, w1) := x : Z * world St in
        nal_loop k fuel' rtp_ts m e pktsize r1 (Z.lor err e1) w1
    end
  else Done (err, w).

(** The buffer [buf, buf + len) is the whole of [m]. *)
Definition h265_packetize (fuel : nat) (rtp_ts : Z) (m : mem) (pktsize : Z)
    (w : world St) : outcome (Z * world St) :=
  let start := base m in
  let e := base m + mem_len m in
  r <- h265_find_startcode fuel m start e ;;
  nal_loop fuel fuel rtp_ts m e pktsize r 0 w.

End Packetizer.

(** ** What the scanner is to find *)

(** The three bytes [00 00 01] stand at address [q], inside the buffer. *)
Definition sc3_at (m : mem) (q : Z) : bool :=
  in_bounds m q && in_bounds m (q + 2) &&
  (byte_at m q =? 0) && (byte_at m (q + 1) =? 0) && (byte_at m (q + 2) =? 1).

Definition no_sc3 (m : mem) (p q : Z) : Prop :=
  forall i, p <= i < q -> sc3_at m i = false.

(** Outcome of a scanner loop started with the cursor at [p]. *)
Definition scan_post (m : mem) (p : Z) (x : loop_exit) (lim : Z) : Prop :=
  match x with
  | Return q => p <= q < lim /\ sc3_at m q = true /\ no_sc3 m p q
  | Fall p' => p <= p' /\ no_sc3 m p p'
  end.

(** What one round of the word loop establishes. *)
Definition word_post (m : mem) (p : Z) (r : option Z) : Prop :=
  match r with
  | Some q => p <= q < p + 4 /\ sc3_at m q = true /\ no_sc3 m p q
  | None => no_sc3 m p (p + 4)
  end.

(** The value of the 32-bit load at [p]. *)
Definition word_at (m : mem) (p : Z) : Z :=
  if big_endian m
  then word_of (byte_at m (p + 3)) (byte_at m (p + 2)) (byte_at m (p + 1)) (byte_at m p)
  else word_of (byte_at m p) (byte_at m (p + 1)) (byte_at m (p + 2)) (byte_at m (p + 3)).

(** What the scanner returns from [p] on a buffer ending at [e]: the first
    start code that has a byte after it, or else [e]. *)
Definition find_post (m : mem) (p e r : Z) : Prop :=
  (p <= r /\ r + 3 < e /\ sc3_at m r = true /\ no_sc3 m p r) \/
  (r = e /\ no_sc3 m p (e - 3)).

(** ** Specification vocabulary *)

(** The [n] bytes of the buffer from address [a] on. *)
Definition bytes (m : mem) (a n : Z) : list byte :=
  firstn (Z.to_nat n) (skipn (Z.to_nat (a - base m)) (data m)).

Definition payload (m : mem) (pk : packet) : list byte :=
  bytes m (pld pk) (pld_len pk).

(** Bitwise OR of a list of return values. *)
Definition lor_all (l : list Z) : Z := fold_right Z.lor 0 l.

(** The third byte of a fragmentation header. *)
Definition fu_first (t : Z) : Z := u8 (Z.lor (Z.shiftl 1 7) t).
Definition clear_start (h2 : Z) : Z := u8 (Z.land h2 (Z.lnot (Z.shiftl 1 7))).
Definition set_end (h2 : Z) : Z := u8 (Z.lor h2 (Z.shiftl 1 6)).

Definition fu_byte (pk : packet) : Z := nth 2 (hdr pk) 0.
Definition fu_start (pk : packet) : bool := Z.testbit (fu_byte pk) 7.
Definition fu_end (pk : packet) : bool := Z.testbit (fu_byte pk) 6.
Definition fu_type (pk : packet) : Z := Z.land (fu_byte pk) 0x3f.

(** [n] fragments of [flen] payload bytes each, none of them the last one. *)
Fixpoint fu_list (n : nat) (ts h0 h1 h2 buf flen : Z) : list packet :=
  match n with
  | O => []
  | S n' =>
      Packet false ts [h0; h1; h2] buf flen ::
      fu_list n' ts h0 h1 (clear_start h2) (buf + flen) flen
  end.

(** Number of fragments before the last one for [len] payload bytes. *)
Definition fu_count (len flen : Z) : nat := Z.to_nat ((len - 1) / flen).

Section Units.

Context {codec : H26x}.

(** The packets one coded unit gives rise to. *)
Definition unit_packets (mk : bool) (ts : Z) (m : mem) (buf len maxlen : Z)
    : list packet :=
  if len <=? maxlen then [Packet mk ts [] buf len]
  else
    let (d, nal) := h265_nal_decode (byte_at m buf) (byte_at m (buf + 1)) in
    if negb (d =? 0) then [] else
    let (h0, h1) := h265_nal_encode H265_NAL_FU (nuh_temporal_id_plus1 nal) in
    let flen := maxlen - 3 in
    let n := fu_count (len - 2) flen in
    fu_list n ts h0 h1 (fu_first (nal_unit_type nal)) (buf + 2) flen ++
    [Packet mk ts [h0; h1; set_end (clear_start (fu_first (nal_unit_type nal)))]
       (buf + 2 + Z.of_nat n * flen) (len - 2 - Z.of_nat n * flen)].

(** The error code of the header decoder for a unit that has to be
    fragmented, 0 for a unit that needs no decoding. *)
Definition unit_decode_error (m : mem) (buf len maxlen : Z) : Z :=
  if len <=? maxlen then 0
  else fst (h265_nal_decode (byte_at m buf) (byte_at m (buf + 1))).

End Units.

(** The coded units [(first byte, one past the last byte)] that follow a
    start code at [r], up to the end [e] of the buffer. *)
Inductive units_from (m : mem) (e : Z) : Z -> list (Z * Z) -> Prop :=
| units_end (r : Z) : e <= r -> units_from m e r []
| units_next (r r1 : Z) (us : list (Z * Z)) :
    r < e -> sc3_at m r = true ->
    find_post m (r + 3) e r1 ->
    units_from m e r1 us ->
    units_from m e r ((r + 3, r1) :: us).

(** The coded units of the whole buffer. *)
Definition nal_units (m : mem) (us : list (Z * Z)) : Prop :=
  exists q, find_post m (base m) (mem_end m) q /\ units_from m (mem_end m) q us.

Section UnitsOfBuffer.

Context {codec : H26x}.

(** Packets and decoder error of the unit [u] of buffer [m]; the marker is
    computed as [h265_packetize] does, from where the unit ends. *)
Definition packets_of (ts : Z) (m : mem) (pktsize : Z) (u : Z * Z) : list packet :=
  unit_packets (mem_end m <=? snd u) ts m (fst u) (snd u - fst u) pktsize.

Definition error_of (m : mem) (pktsize : Z) (u : Z * Z) : Z :=
  unit_decode_error m (fst u) (snd u - fst u) pktsize.

End UnitsOfBuffer.

(** ** Collaborators used to run the code on concrete buffers *)

(** Modelled from the spec: the unit-header codec of h26x.h, absent from the
    sources at hand.  Decoding splits the two header bytes into their
    fields and never fails ("pure, total functions"; the forbidden bit is
    "not enforced as fatal"); encoding masks the fields to their widths, with
    layer id 0.  The fragmentation-unit type code is 49. *)
Definition spec_codec : H26x := {|
  h265_nal_decode := fun b0 b1 =>
    (0, Nal (Z.land (Z.shiftr b0 1) 0x3f) (Z.land b1 0x07));
  h265_nal_encode := fun t tid =>
    (Z.shiftl (Z.land t 0x3f) 1, Z.land tid 0x07);
  H265_NAL_FU := 49
|}.

(** The same codec with a decoder that refuses a header whose forbidden
    bit is set, reporting 74 (EBADMSG). *)
Definition strict_codec : H26x := {|
  h265_nal_decode := fun b0 b1 =>
    (if Z.testbit b0 7 then 74 else 0,
     Nal (Z.land (Z.shiftr b0 1) 0x3f) (Z.land b1 0x07));
  h265_nal_encode := fun t tid =>
    (Z.shiftl (Z.land t 0x3f) 1, Z.land tid 0x07);
  H265_NAL_FU := 49
|}.

(** A handler that accepts every packet. *)
Definition ok_sink : Sink unit := {| pkth := fun _ _ => (0, tt) |}.

(** A handler that counts its calls and rejects the first packet with 12
    (ENOMEM). *)
Definition flaky_sink : Sink nat := {|
  pkth := fun n _ => (match n with O => 12 | _ => 0 end, S n)
|}.

(** Whether [00 00 01] occurs in a list of bytes. *)
Fixpoint contains_sc3 (l : list byte) : bool :=
  match l with
  | [] => false
  | a :: l' =>
      match l' with
      | b :: c :: _ =>
          (byte_val a =? 0) && (byte_val b =? 0) && (byte_val c =? 1)
      | _ => false
      end || contains_sc3 l'
  end.

(** ** Vocabulary for the start-code tests *)

(** The bytes at [p] begin with [00 00 01], with [00 00 00 01]. *)
Definition sc3_prefix (m : mem) (p : Z) : bool :=
  (byte_at m p =? 0) && (byte_at m (p + 1) =? 0) && (byte_at m (p + 2) =? 1).

Definition sc4_prefix (m : mem) (p : Z) : bool :=
  (byte_at m p =? 0) && (byte_at m (p + 1) =? 0) && (byte_at m (p + 2) =? 0) &&
  (byte_at m (p + 3) =? 1).

(** ** Reference points for the scanner *)

(** A plain byte-by-byte search for [00 00 01] over the [n] positions from
    [p] on; [p + n] when there is none. *)
Fixpoint naive_scan (n : nat) (m : mem) (p : Z) : Z :=
  match n with
  | O => p
  | S n' => if sc3_at m p then p else naive_scan n' m (p + 1)
  end.

(** The byte-by-byte search over the positions that [h265_find_startcode]
    examines, those below [e - 3], with [e] for "not found". *)
Definition naive_find (m : mem) (p e : Z) : Z :=
  let q := naive_scan (Z.to_nat (e - 3 - p)) m p in
  if q <? e - 3 then q else e.

(** The buffer cut off at address [e]. *)
Definition truncate (m : mem) (e : Z) : mem :=
  Mem (base m) (firstn (Z.to_nat (e - base m)) (data m)) (big_endian m).

(** ** Reference points for the packetizer *)


(** The addresses of the 32-bit loads of the word loop
    [for (...; p < end; p += 4) { x = *(uint32_t * )p; ... }], round by
    round: a round with the cursor [p] below [e] loads at [p], and the loop
    goes on, with the cursor at [p + 4], when the round returns nothing. *)
Fixpoint word_loads (fuel : nat) (m : mem) (p e : Z) : list Z :=
  if p <? e then
    match fuel with
    | O => []
    | S fuel' =>
        p :: match (x <- load32 m p ;;
                    if zero_byte_test x =? 0 then Done None else probe_word m p) with
             | Done None => word_loads fuel' m (p + 4) e
             | _ => []
             end
    end
  else [].

(** The 32-bit loads of one call of [h265_find_startcode]: those of its
    word loop, entered where the first byte loop falls through. *)
Definition find_word_loads (fuel : nat) (m : mem) (p e : Z) : list Z :=
  match scan_bytes fuel m p (p + 4 - Z.land p 3) (e - 3) with
  | Done (Fall p1) => word_loads fuel m p1 (e - 3 - 3)
  | _ => []
  end.

(** * Proofs *)

(** ** The scanner *)

Example find_startcode_example :
  h265_find_startcode 6 (mem_of 1001 [xaa; x00; x00; x01; x26; x01]) 1001 1007
  = Done 1002.
Proof. reflexivity. Qed.

Lemma usize_small (x : Z) : 0 <= x < 2 ^ 64 -> usize x = x.
Proof. intros H. unfold usize. apply Z.mod_small. assumption. Qed.

Lemma testbit_div (a n : Z) : 0 <= n -> Z.testbit a n = true <-> (a / 2 ^ n) mod 2 = 1.
Proof. intros. apply Z.testbit_true; assumption. Qed.

Lemma land3_bit (a b c n : Z) :
  Z.testbit a n = true -> Z.testbit b n = true -> Z.testbit c n = true ->
  Z.land (Z.land a b) c <> 0.
Proof.
  intros Ha Hb Hc E.
  assert (Z.testbit (Z.land (Z.land a b) c) n = true)
    by (rewrite !Z.land_spec, Ha, Hb, Hc; reflexivity).
  rewrite E, Z.bits_0 in H. discriminate.
Qed.

Ltac bit_arith :=
  apply testbit_div; [lia|];
  unfold u32, word_of, Z.lnot; rewrite ?Z.shiftl_mul_pow2 by lia;
  change (2 ^ 8) with 256; change (2 ^ 16) with 65536; change (2 ^ 24) with 16777216;
  change (2 ^ 32) with 4294967296;
  cbn [Z.pow Z.pow_pos Pos.iter Z.mul Pos.mul];
  Z.div_mod_to_equations; lia.

(** The word test of the second loop never lets a zero byte pass: a word
    with a zero byte, in either byte order, makes it non-zero. *)
Lemma zero_byte_test_hit (b0 b1 b2 b3 : Z) :
  0 <= b0 < 256 -> 0 <= b1 < 256 -> 0 <= b2 < 256 -> 0 <= b3 < 256 ->
  b0 = 0 \/ b1 = 0 \/ b2 = 0 \/ b3 = 0 ->
  zero_byte_test (word_of b0 b1 b2 b3) <> 0.
Proof.
  intros H0 H1 H2 H3 Hz. unfold zero_byte_test.
  destruct (Z.eq_dec b0 0) as [E0|N0].
  { subst b0. apply (land3_bit _ _ _ 7); [ | | reflexivity]; bit_arith. }
  destruct (Z.eq_dec b1 0) as [E1|N1].
  { subst b1. apply (land3_bit _ _ _ 15); [ | | reflexivity]; bit_arith. }
  destruct (Z.eq_dec b2 0) as [E2|N2].
  { subst b2. apply (land3_bit _ _ _ 23); [ | | reflexivity]; bit_arith. }
  assert (b3 = 0) by lia. subst b3.
  apply (land3_bit _ _ _ 31); [ | | reflexivity]; bit_arith.
Qed.

Lemma byte_val_range (b : byte) : 0 <= byte_val b < 256.
Proof.
  unfold byte_val. pose proof (Byte.to_N_bounded b). lia.
Qed.

Lemma byte_at_range (m : mem) (a : Z) : 0 <= byte_at m a < 256.
Proof. apply byte_val_range. Qed.

Lemma in_bounds_true (m : mem) (a : Z) :
  base m <= a < mem_end m -> in_bounds m a = true.
Proof. unfold in_bounds. intros. apply andb_true_intro. split; [apply Z.leb_le|apply Z.ltb_lt]; lia. Qed.

Lemma load8_ok (m : mem) (a : Z) :
  base m <= a < mem_end m -> load8 m a = Done (byte_at m a).
Proof. intros H. unfold load8. rewrite in_bounds_true by assumption. reflexivity. Qed.

(** A read is a fault exactly when its address is outside the buffer. *)
Lemma load8_outside (m : mem) (a : Z) :
  ~ (base m <= a < mem_end m) -> load8 m a = Fault a.
Proof.
  intros H. unfold load8, in_bounds.
  destruct (Z.leb_spec (base m) a), (Z.ltb_spec a (mem_end m)); try reflexivity; lia.
Qed.

Lemma sc3_at_iff (m : mem) (q : Z) :
  base m <= q -> q + 2 < mem_end m ->
  sc3_at m q = true <->
  byte_at m q = 0 /\ byte_at m (q + 1) = 0 /\ byte_at m (q + 2) = 1.
Proof.
  intros Hl Hh. unfold sc3_at.
  rewrite !in_bounds_true by lia. cbn [andb].
  rewrite !andb_true_iff, !Z.eqb_eq. tauto.
Qed.

Lemma sc3_here_ok (m : mem) (p : Z) :
  base m <= p -> p + 2 < mem_end m -> sc3_here m p = Done (sc3_at m p).
Proof.
  intros Hl Hh. unfold sc3_here, both, sc3_at.
  rewrite !load8_ok, !in_bounds_true by lia. cbn [obind andb].
  destruct (byte_at m p =? 0); [|reflexivity].
  destruct (byte_at m (p + 1) =? 0); reflexivity.
Qed.

Lemma both_ok (m : mem) (p i u j v : Z) :
  base m <= p + i < mem_end m -> base m <= p + j < mem_end m ->
  both m p i u j v = Done ((byte_at m (p + i) =? u) && (byte_at m (p + j) =? v)).
Proof.
  intros Hi Hj. unfold both. rewrite !load8_ok by lia. cbn [obind].
  destruct (byte_at m (p + i) =? u); reflexivity.
Qed.

Lemma no_sc3_step (m : mem) (p q : Z) :
  sc3_at m p = false -> no_sc3 m (p + 1) q -> no_sc3 m p q.
Proof.
  intros H0 H i Hi. destruct (Z.eq_dec i p) as [->|N]; [assumption|].
  apply H. lia.
Qed.

(** A byte loop either runs out of fuel, and then the fuel was less than the
    distance to its bound, or returns the first start code it met, or falls
    through having met none. *)
Lemma scan_bytes_spec (fuel : nat) (m : mem) (a e : Z) :
  e + 2 <= mem_end m ->
  forall p, base m <= p ->
  (scan_bytes fuel m p a e = OutOfFuel /\ (fuel < Z.to_nat (e - p))%nat) \/
  (exists x, scan_bytes fuel m p a e = Done x /\ scan_post m p x e /\
     match x with Return q => q < a | Fall p' => ~ (p' < a /\ p' < e) end).
Proof.
  intros He. induction fuel as [|fuel IH]; intros p Hp; cbn [scan_bytes].
  - destruct (Z.ltb_spec p a); destruct (Z.ltb_spec p e); cbn [andb];
      try (right; exists (Fall p); split; [reflexivity|split; [split; [lia|intros i Hi; lia]|lia]]).
    left. split; [reflexivity|lia].
  - destruct (Z.ltb_spec p a); destruct (Z.ltb_spec p e); cbn [andb];
      try (right; exists (Fall p); split; [reflexivity|split; [split; [lia|intros i Hi; lia]|lia]]).
    rewrite sc3_here_ok by lia. cbn [obind].
    destruct (sc3_at m p) eqn:Hsc.
    + right. exists (Return p). split; [reflexivity|]. split; [|lia].
      split; [lia|]. split; [assumption|]. intros i Hi; lia.
    + destruct (IH (p + 1)) as [[E Hf]|[x [E [Hpost Hx]]]]; [lia| |].
      * left. split; [assumption|lia].
      * right. exists x. split; [assumption|]. split; [|assumption].
        destruct x as [q|p']; cbn [scan_post] in *.
        -- destruct Hpost as (Hq & Hs & Hn). split; [lia|]. split; [assumption|].
           apply no_sc3_step; assumption.
        -- destruct Hpost as (Hq & Hn). split; [lia|]. apply no_sc3_step; assumption.
Qed.

Lemma sc3_at_bytes (m : mem) (q q1 q2 : Z) :
  q1 = q + 1 -> q2 = q + 2 -> base m <= q -> q2 < mem_end m ->
  sc3_at m q = true <-> byte_at m q = 0 /\ byte_at m q1 = 0 /\ byte_at m q2 = 1.
Proof. intros -> -> Hl Hh. apply sc3_at_iff; lia. Qed.

Lemma sc3_at_false (m : mem) (q q1 q2 : Z) :
  q1 = q + 1 -> q2 = q + 2 -> base m <= q -> q2 < mem_end m ->
  byte_at m q <> 0 \/ byte_at m q1 <> 0 \/ byte_at m q2 <> 1 ->
  sc3_at m q = false.
Proof.
  intros E1 E2 Hl Hh H. apply not_true_iff_false.
  rewrite (sc3_at_bytes m q q1 q2) by assumption. tauto.
Qed.

Ltac four_cases i p :=
  assert (i = p \/ i = p + 1 \/ i = p + 2 \/ i = p + 3) as [ -> | [ -> | [ -> | -> ] ] ] by lia.

Ltac sc3_no p :=
  first [ apply (sc3_at_false _ _ (p + 1) (p + 2)); [lia|lia|lia|lia|lia]
        | apply (sc3_at_false _ _ (p + 2) (p + 3)); [lia|lia|lia|lia|lia]
        | apply (sc3_at_false _ _ (p + 3) (p + 4)); [lia|lia|lia|lia|lia]
        | apply (sc3_at_false _ _ (p + 4) (p + 5)); [lia|lia|lia|lia|lia] ].

Ltac sc3_yes p :=
  first [ apply (sc3_at_bytes _ _ (p + 1) (p + 2)); [lia|lia|lia|lia|lia]
        | apply (sc3_at_bytes _ _ (p + 2) (p + 3)); [lia|lia|lia|lia|lia]
        | apply (sc3_at_bytes _ _ (p + 3) (p + 4)); [lia|lia|lia|lia|lia]
        | apply (sc3_at_bytes _ _ (p + 4) (p + 5)); [lia|lia|lia|lia|lia] ].

(** The four probes of the word loop find the first start code among the
    positions [p .. p + 3], if there is one. *)
Lemma probe_word_spec (m : mem) (p : Z) :
  base m <= p -> p + 5 < mem_end m ->
  exists r, probe_word m p = Done r /\ word_post m p r.
Proof.
  intros Hl Hh. unfold probe_word.
  rewrite !both_ok, !load8_ok by lia. rewrite Z.add_0_r.
  cbn [obind].
  repeat match goal with
         | |- context [?a =? ?b] => destruct (Z.eqb_spec a b); cbn [obind andb]
         end;
  eexists; (split; [reflexivity|]); cbn [word_post];
  try (split; [lia|split; [sc3_yes p|]]);
  intros i Hi; four_cases i p; try lia; sc3_no p.
Qed.

Lemma load32_ok (m : mem) (p : Z) :
  base m <= p -> p + 3 < mem_end m -> load32 m p = Done (word_at m p).
Proof.
  intros Hl Hh. unfold load32. rewrite !load8_ok by lia. reflexivity.
Qed.

Lemma word_round_spec (m : mem) (p : Z) :
  base m <= p -> p + 5 < mem_end m ->
  exists r,
    (if zero_byte_test (word_at m p) =? 0 then Done None else probe_word m p) = Done r /\
    word_post m p r.
Proof.
  intros Hl Hh.
  destruct (Z.eqb_spec (zero_byte_test (word_at m p)) 0) as [E|N].
  - exists None. split; [reflexivity|]. cbn [word_post].
    assert (Hnz : byte_at m p <> 0 /\ byte_at m (p + 1) <> 0 /\
                  byte_at m (p + 2) <> 0 /\ byte_at m (p + 3) <> 0).
    { pose proof (byte_at_range m p). pose proof (byte_at_range m (p + 1)).
      pose proof (byte_at_range m (p + 2)). pose proof (byte_at_range m (p + 3)).
      unfold word_at in E.
      repeat split; intros Z0; revert E;
        destruct (big_endian m); apply zero_byte_test_hit; auto. }
    intros i Hi; four_cases i p; sc3_no p.
  - apply probe_word_spec; assumption.
Qed.

Lemma no_sc3_app (m : mem) (p q r : Z) :
  no_sc3 m p q -> no_sc3 m q r -> no_sc3 m p r.
Proof.
  intros H1 H2 i Hi. destruct (Z.lt_ge_cases i q); [apply H1|apply H2]; lia.
Qed.

(** The word loop, as the byte loops. *)
Lemma scan_words_spec (fuel : nat) (m : mem) (e : Z) :
  e + 5 <= mem_end m ->
  forall p, base m <= p ->
  (scan_words fuel m p e = OutOfFuel /\ (fuel < Z.to_nat (e - p))%nat) \/
  (exists x, scan_words fuel m p e = Done x /\ scan_post m p x (e + 3) /\
     match x with Return _ => True | Fall p' => e <= p' end).
Proof.
  intros He. induction fuel as [|fuel IH]; intros p Hp; cbn [scan_words].
  - destruct (Z.ltb_spec p e).
    + left. split; [reflexivity|lia].
    + right. exists (Fall p). split; [reflexivity|].
      split; [split; [lia|intros i Hi; lia]|lia].
  - destruct (Z.ltb_spec p e).
    + destruct (word_round_spec m p) as [r [E Hr]]; [lia|lia|].
      rewrite load32_ok by lia. cbn [obind].
      rewrite E. cbn [obind]. destruct r as [q|]; cbn [word_post] in Hr.
      * right. exists (Return q). split; [reflexivity|]. split; [|exact I].
        destruct Hr as (Hq & Hs & Hn). cbn [scan_post]. repeat split; try lia; assumption.
      * destruct (IH (p + 4)) as [[E' Hf]|[x [E' [Hpost Hx]]]]; [lia| |].
        -- left. split; [assumption|lia].
        -- right. exists x. split; [assumption|]. split; [|assumption].
           destruct x as [q|p']; cbn [scan_post] in *.
           ++ destruct Hpost as (Hq & Hs & Hn). split; [lia|]. split; [assumption|].
              eapply no_sc3_app; eassumption.
           ++ destruct Hpost as (Hq & Hn). split; [lia|].
              eapply no_sc3_app; eassumption.
    + right. exists (Fall p). split; [reflexivity|].
      split; [split; [lia|intros i Hi; lia]|lia].
Qed.

Lemma no_sc3_weaken (m : mem) (p q q' : Z) :
  q' <= q -> no_sc3 m p q -> no_sc3 m p q'.
Proof. intros Hq H i Hi. apply H. lia. Qed.

(** The scanner on a buffer that ends at [e], inside [m]: no fault, and with
    fuel for [e - p] rounds the result described by [find_post]. *)
Lemma find_startcode_spec (fuel : nat) (m : mem) (p e : Z) :
  base m <= p -> e <= mem_end m ->
  (h265_find_startcode fuel m p e = OutOfFuel /\ (fuel < Z.to_nat (e - p))%nat) \/
  (exists r, h265_find_startcode fuel m p e = Done r /\ find_post m p e r).
Proof.
  intros Hp He. unfold h265_find_startcode.
  destruct (scan_bytes_spec fuel m (p + 4 - Z.land p 3) (e - 3)) with (p := p)
    as [[E1 F1]|[x1 [E1 [P1 X1]]]]; [lia|lia| |]; rewrite E1; cbn [obind].
  { left. split; [reflexivity|lia]. }
  destruct x1 as [q|p1]; cbn [scan_post] in P1.
  { right. exists q. split; [reflexivity|]. left.
    destruct P1 as (Hq & Hs & Hn). repeat split; try lia; assumption. }
  destruct P1 as [Hp1 N1].
  destruct (scan_words_spec fuel m (e - 3 - 3)) with (p := p1)
    as [[E2 F2]|[x2 [E2 [P2 X2]]]]; [lia|lia| |]; rewrite E2; cbn [obind].
  { left. split; [reflexivity|lia]. }
  destruct x2 as [q|p2]; cbn [scan_post] in P2.
  { right. exists q. split; [reflexivity|]. left.
    destruct P2 as (Hq & Hs & Hn). repeat split; try lia; try assumption.
    eapply no_sc3_app; eassumption. }
  destruct P2 as [Hp2 N2].
  destruct (scan_bytes_spec fuel m (e - 3 - 3 + 3) (e - 3 - 3 + 3)) with (p := p2)
    as [[E3 F3]|[x3 [E3 [P3 X3]]]]; [lia|lia| |]; rewrite E3; cbn [obind].
  { left. split; [reflexivity|lia]. }
  destruct x3 as [q|p3]; cbn [scan_post] in P3.
  { right. exists q. split; [reflexivity|]. left.
    destruct P3 as (Hq & Hs & Hn). repeat split; try lia; try assumption.
    eapply no_sc3_app; [|eassumption]. eapply no_sc3_app; eassumption. }
  destruct P3 as [Hp3 N3].
  right. exists (e - 3 - 3 + 3 + 3). split; [reflexivity|]. right.
  split; [lia|].
  apply no_sc3_weaken with (q := p3); [lia|].
  eapply no_sc3_app; [|eassumption]. eapply no_sc3_app; eassumption.
Qed.

(** ** Properties of the start-code scanner *)

(** C1 (as amended).  From any position [p] inside the buffer the scanner
    returns the position of the first sequence [00 00 01] at or after [p]
    that is followed by at least one more byte of the buffer (its position
    [r] satisfies [r + 3 < B.end]); when there is none it returns exactly
    [B.end]. *)
Theorem find_startcode_first (fuel : nat) (m : mem) (p : Z) :
  base m <= p -> (Z.to_nat (mem_end m - p) <= fuel)%nat ->
  exists r,
    h265_find_startcode fuel m p (mem_end m) = Done r /\
    ((p <= r /\ r + 3 < mem_end m /\ sc3_at m r = true /\
      forall i, p <= i < r -> sc3_at m i = false) \/
     (r = mem_end m /\
      forall i, p <= i -> i + 3 < mem_end m -> sc3_at m i = false)).
Proof.
  intros Hp Hfuel.
  destruct (find_startcode_spec fuel m p (mem_end m)) as [[E F]|[r [E P]]];
    [lia|lia|lia|].
  exists r. split; [assumption|].
  destruct P as [(H1 & H2 & H3 & H4)|[H1 H2]].
  - left. repeat split; assumption.
  - right. split; [assumption|]. intros i Hi Hi3. apply H2. lia.
Qed.

Lemma find_startcode_first_witness :
  let m := mem_of 1001 [xaa; x00; x00; x01; x26; x01] in
  exists r,
    h265_find_startcode 6 m 1001 (mem_end m) = Done r /\
    ((1001 <= r /\ r + 3 < mem_end m /\ sc3_at m r = true /\
      forall i, 1001 <= i < r -> sc3_at m i = false) \/
     (r = mem_end m /\
      forall i, 1001 <= i -> i + 3 < mem_end m -> sc3_at m i = false)).
Proof.
  intro m. apply (find_startcode_first 6 m 1001); vm_compute; [discriminate|lia].
Defined.

(** C1 as stated fails on a start code that closes the buffer: in
    [26 01 00 00 01] the sequence [00 00 01] at offset 2 lies wholly inside
    the buffer (its last byte is the last byte of the buffer), and the
    scanner, started at the first byte, returns the end of the buffer. *)
Lemma find_startcode_misses_final_sc3 :
  let m := mem_of 1000 [x26; x01; x00; x00; x01] in
  sc3_at m 1002 = true /\ 1000 <= 1002 /\ 1002 + 2 < mem_end m /\
  h265_find_startcode 5 m 1000 (mem_end m) = Done (mem_end m) /\
  mem_end m <> 1002.
Proof. vm_compute. repeat split; try reflexivity; discriminate. Qed.

(** C2.  Whatever the buffer (shorter than three bytes, without any start
    code, ...), the start position in it and the fuel, no run of the scanner
    reads a byte outside [B.start, B.end): every read of the three loops is
    checked by [load8], and none is a [Fault]. *)
Theorem find_startcode_in_bounds (fuel : nat) (m : mem) (p a : Z) :
  base m <= p -> h265_find_startcode fuel m p (mem_end m) <> Fault a.
Proof.
  intros Hp.
  destruct (find_startcode_spec fuel m p (mem_end m)) as [[E F]|[r [E P]]];
    [lia|lia| |]; rewrite E; discriminate.
Qed.

Lemma find_startcode_in_bounds_witness :
  let m := mem_of 1003 [x00; x00] in
  h265_find_startcode 2 m 1003 (mem_end m) <> Fault 1005.
Proof.
  intro m. apply (find_startcode_in_bounds 2 m 1003 1005). vm_compute. discriminate.
Defined.

(** ** h265_skip_startcode *)

Lemma memcmp_eq_ok (m : mem) (pat : list Z) :
  forall p, base m <= p -> p + Z.of_nat (length pat) <= mem_end m ->
  exists b, memcmp_eq m p pat = Done b /\
    (b = true <-> forall i, (i < length pat)%nat ->
                    byte_at m (p + Z.of_nat i) = nth i pat 0).
Proof.
  induction pat as [|c pat IH]; intros p Hl Hh; cbn [memcmp_eq].
  - exists true. split; [reflexivity|]. split; [intros _ i Hi; inversion Hi|reflexivity].
  - cbn [length] in Hh. rewrite load8_ok by lia. cbn [obind].
    destruct (IH (p + 1)) as (b & E & Hb); [lia|lia|]. rewrite E. cbn [obind].
    exists ((byte_at m p =? c) && b). split; [reflexivity|].
    rewrite andb_true_iff, Z.eqb_eq, Hb. split.
    + intros [H0 H1] [|i] Hi; cbn [nth].
      * rewrite Z.add_0_r. assumption.
      * replace (p + Z.of_nat (S i)) with (p + 1 + Z.of_nat i) by lia.
        apply H1. cbn [length] in Hi. lia.
    + intros H. split.
      * specialize (H O). cbn [nth Z.of_nat length] in H. rewrite Z.add_0_r in H.
        apply H. lia.
      * intros i Hi. specialize (H (S i)). cbn [nth length] in H.
        replace (p + 1 + Z.of_nat i) with (p + Z.of_nat (S i)) by lia.
        apply H. lia.
Qed.

(** With four bytes or more left the skipper does what is expected of it:
    the four-byte form is tried first and skipped whole, then the
    three-byte form, and otherwise nothing moves. *)
Lemma skip_startcode_four_left (m : mem) (p n : Z) :
  base m <= p -> 4 <= n < 2 ^ 64 -> p + n <= mem_end m ->
  exists p' n', h265_skip_startcode m p n = Done (p', n') /\
    p' - p = n - n' /\
    (byte_at m p = 0 /\ byte_at m (p + 1) = 0 /\ byte_at m (p + 2) = 0 /\
       byte_at m (p + 3) = 1 -> p' = p + 4) /\
    (byte_at m p = 0 /\ byte_at m (p + 1) = 0 /\ byte_at m (p + 2) = 1 -> p' = p + 3) /\
    (~ (byte_at m p = 0 /\ byte_at m (p + 1) = 0 /\
        (byte_at m (p + 2) = 1 \/ byte_at m (p + 2) = 0 /\ byte_at m (p + 3) = 1)) ->
     p' = p).
Proof.
  intros Hl Hn Hh. unfold h265_skip_startcode.
  destruct (Z.ltb_spec n 4) as [Hn4|Hn4]; [lia|].
  destruct (memcmp_eq_ok m sc4 p) as (b4 & E4 & H4); [lia|cbn; lia|].
  destruct (memcmp_eq_ok m sc3 p) as (b3 & E3 & H3); [lia|cbn; lia|].
  rewrite E4. cbn [obind].
  assert (K4 : b4 = true <-> byte_at m p = 0 /\ byte_at m (p + 1) = 0 /\
                             byte_at m (p + 2) = 0 /\ byte_at m (p + 3) = 1).
  { rewrite H4. split.
    - intros Hall. pose proof (Hall 0%nat) as A0. pose proof (Hall 1%nat) as A1.
      pose proof (Hall 2%nat) as A2. pose proof (Hall 3%nat) as A3.
      cbn in A0, A1, A2, A3. rewrite Z.add_0_r in A0.
      repeat split; [apply A0|apply A1|apply A2|apply A3]; lia.
    - intros (A0 & A1 & A2 & A3) [|[|[|[|i]]]] Hi; cbn in Hi |- *;
        rewrite ?Z.add_0_r; try assumption; lia. }
  assert (K3 : b3 = true <-> byte_at m p = 0 /\ byte_at m (p + 1) = 0 /\
                             byte_at m (p + 2) = 1).
  { rewrite H3. split.
    - intros Hall. pose proof (Hall 0%nat) as A0. pose proof (Hall 1%nat) as A1.
      pose proof (Hall 2%nat) as A2.
      cbn in A0, A1, A2. rewrite Z.add_0_r in A0.
      repeat split; [apply A0|apply A1|apply A2]; lia.
    - intros (A0 & A1 & A2) [|[|[|i]]] Hi; cbn in Hi |- *;
        rewrite ?Z.add_0_r; try assumption; lia. }
  clear H3 H4.
  destruct b4.
  - exists (p + 4), (usize (n - 4)). rewrite usize_small by lia.
    split; [reflexivity|]. split; [lia|].
    assert (T4 : true = true) by reflexivity. apply K4 in T4.
    split; [reflexivity|]. split; [lia|]. intros N. exfalso. apply N. tauto.
  - rewrite E3. cbn [obind]. destruct b3.
    + exists (p + 3), (usize (n - 3)). rewrite usize_small by lia.
      split; [reflexivity|]. split; [lia|].
      assert (T3 : true = true) by reflexivity. apply K3 in T3.
      split; [lia|]. split; [reflexivity|]. intros N. exfalso. apply N. tauto.
    + exists p, n. split; [reflexivity|]. split; [lia|].
      split; [intros A; apply K4 in A; discriminate|].
      split; [intros A; apply K3 in A; discriminate|]. reflexivity.
Qed.

(** C7, where the code departs from it.  With exactly three bytes left and
    these three being [00 00 01], [h265_have_startcode] reports a start code
    and [h265_skip_startcode] leaves position and length as they were: its
    guard [*n < 4] returns before the three-byte form is looked at. *)
Theorem skip_startcode_three_left (b : Z) (be : bool) :
  let m := Mem b [x00; x00; x01] be in
  h265_have_startcode m b 3 = Done true /\
  h265_skip_startcode m b 3 = Done (b, 3).
Proof.
  intro m. split; [|reflexivity].
  unfold h265_have_startcode. cbn [Z.leb Z.compare Pos.compare Pos.compare_cont obind].
  destruct (memcmp_eq_ok m sc3 b) as (b3 & E3 & H3);
    [subst m; cbn; lia|subst m; unfold mem_end, mem_len; cbn; lia|].
  rewrite E3. cbn [obind].
  assert (b3 = true) as ->.
  { apply H3. intros [|[|[|i]]] Hi; cbn in Hi; try lia; unfold byte_at;
      subst m; cbn [base data];
      [replace (b + Z.of_nat 0 - b) with 0 by lia
      |replace (b + Z.of_nat 1 - b) with 1 by lia
      |replace (b + Z.of_nat 2 - b) with 2 by lia]; reflexivity. }
  reflexivity.
Qed.

(** ** The fragmentation loop *)

Lemma lor_all_app (l1 l2 : list Z) :
  lor_all (l1 ++ l2) = Z.lor (lor_all l1) (lor_all l2).
Proof.
  induction l1 as [|x l1 IH]; cbn [app lor_all fold_right].
  - reflexivity.
  - fold (lor_all (l1 ++ l2)). fold (lor_all l1). rewrite IH. apply Z.lor_assoc.
Qed.

Lemma clear_start_idem (h2 : Z) : clear_start (clear_start h2) = clear_start h2.
Proof.
  unfold clear_start, u8. apply Z.bits_inj'. intros n Hn.
  destruct (Z.lt_ge_cases n 8).
  - rewrite !Z.mod_pow2_bits_low, !Z.land_spec by lia.
    rewrite Z.mod_pow2_bits_low, Z.land_spec by lia.
    destruct (Z.testbit h2 n), (Z.testbit (Z.lnot (Z.shiftl 1 7)) n); reflexivity.
  - rewrite !Z.mod_pow2_bits_high by lia. reflexivity.
Qed.

Section FragmentLoop.

Context {codec : H26x} {St : Type} {handler : Sink St}.

Lemma call_pkth_sent (pk : packet) (w : world St) :
  sent (snd (call_pkth pk w)) = sent w ++ [(pk, fst (call_pkth pk w))].
Proof.
  unfold call_pkth. destruct (pkth (sink w) pk) as [e s]. reflexivity.
Qed.

(** The fragmentation loop sends [n] full fragments, ORs what the handler
    returned into [err], and leaves between 1 and [flen] payload bytes. *)
Lemma fu_loop_spec (ts h0 h1 flen : Z) :
  0 < flen ->
  forall (fuel : nat) (err buf len h2 : Z) (w : world St),
  0 <= len < 2 ^ 64 -> (Z.to_nat len <= fuel)%nat ->
  exists (n : nat) (err' : Z) (w' : world St) (cs : list (packet * Z)),
    fu_loop fuel ts h0 h1 flen err buf len h2 w =
      Done (err', buf + Z.of_nat n * flen, len - Z.of_nat n * flen,
            match n with O => h2 | S _ => clear_start h2 end, w') /\
    sent w' = sent w ++ cs /\
    map fst cs = fu_list n ts h0 h1 h2 buf flen /\
    err' = Z.lor err (lor_all (map snd cs)) /\
    len - Z.of_nat n * flen <= flen /\
    (0 < len -> 0 < len - Z.of_nat n * flen).
Proof.
  intros Hflen. induction fuel as [|fuel IH]; intros err buf len h2 w Hlen Hfuel;
    cbn [fu_loop]; destruct (Z.ltb_spec flen len) as [Hgt|Hle].
  - lia.
  - exists O, err, w, []. cbn [Z.of_nat]. rewrite Z.add_0_r, Z.sub_0_r, app_nil_r.
    cbn [map lor_all fold_right fu_list]. rewrite Z.lor_0_r. repeat split; try reflexivity; lia.
  - pose proof (call_pkth_sent (Packet false ts [h0; h1; h2] buf flen) w) as Hs.
    destruct (call_pkth (Packet false ts [h0; h1; h2] buf flen) w) as [e w1].
    cbn [fst snd] in Hs.
    rewrite usize_small by lia.
    destruct (IH (Z.lor err e) (buf + flen) (len - flen)
                 (u8 (Z.land h2 (Z.lnot (Z.shiftl 1 7)))) w1)
      as (n & err' & w' & cs & E & Hsent & Hmap & Herr & Hfit & Hpos); [lia|lia|].
    exists (S n), err', w', ((Packet false ts [h0; h1; h2] buf flen, e) :: cs).
    split; [|split; [|split; [|split; [|split]]]].
    + rewrite E. fold (clear_start h2).
      replace (match n with O => clear_start h2 | S _ => clear_start (clear_start h2) end)
        with (clear_start h2) by (destruct n; [reflexivity|symmetry; apply clear_start_idem]).
      repeat (f_equal; try lia).
    + rewrite Hsent, Hs, <- app_assoc. reflexivity.
    + cbn [map fst fu_list]. rewrite Hmap. reflexivity.
    + rewrite Herr. cbn [map snd lor_all fold_right]. fold (lor_all (map snd cs)).
      symmetry. apply Z.lor_assoc.
    + lia.
    + lia.
  - exists O, err, w, []. cbn [Z.of_nat]. rewrite Z.add_0_r, Z.sub_0_r, app_nil_r.
    cbn [map lor_all fold_right fu_list]. rewrite Z.lor_0_r. repeat split; try reflexivity; lia.
Qed.

End FragmentLoop.

(** ** One coded unit *)

Lemma fu_count_unique (len flen : Z) (n : nat) :
  0 < flen -> 0 < len - Z.of_nat n * flen <= flen -> n = fu_count len flen.
Proof.
  intros Hf Hn. unfold fu_count.
  assert (E : (len - 1) / flen = Z.of_nat n).
  { symmetry. apply Z.div_unique with (r := len - 1 - Z.of_nat n * flen); lia. }
  rewrite E. symmetry. apply Nat2Z.id.
Qed.

Lemma fu_count_bounds (len flen : Z) :
  0 < flen -> 0 < len ->
  0 < len - Z.of_nat (fu_count len flen) * flen <= flen.
Proof.
  intros Hf Hl. unfold fu_count.
  rewrite Z2Nat.id by (apply Z.div_pos; lia).
  pose proof (Z.div_mod (len - 1) flen ltac:(lia)) as E.
  pose proof (Z.mod_pos_bound (len - 1) flen Hf). nia.
Qed.

Section OneUnit.

Context {codec : H26x} {St : Type} {handler : Sink St}.

(** [packetize] sends the packets of [unit_packets], whatever the handler
    returns, and returns the OR of the decoder's error and of the handler's
    return values. *)
Lemma packetize_spec (fuel : nat) (mk : bool) (m : mem) (buf len maxlen ts : Z)
    (w : world St) :
  3 < maxlen < 2 ^ 64 -> 0 <= len < 2 ^ 64 ->
  (maxlen < len -> base m <= buf /\ buf + 1 < mem_end m) ->
  (Z.to_nat len <= fuel)%nat ->
  exists (err : Z) (w' : world St) (cs : list (packet * Z)),
    packetize fuel mk m buf len maxlen ts w = Done (err, w') /\
    sent w' = sent w ++ cs /\
    map fst cs = unit_packets mk ts m buf len maxlen /\
    err = Z.lor (unit_decode_error m buf len maxlen) (lor_all (map snd cs)).
Proof.
  intros Hmax Hlen Hbuf Hfuel. unfold packetize, unit_packets, unit_decode_error.
  destruct (Z.leb_spec len maxlen) as [Hle|Hgt].
  - pose proof (call_pkth_sent (Packet mk ts [] buf len) w) as Hs.
    destruct (call_pkth (Packet mk ts [] buf len) w) as [e w1]. cbn [fst snd] in Hs.
    exists e, w1, [(Packet mk ts [] buf len, e)].
    repeat split; try assumption.
    cbn [map snd lor_all fold_right]. rewrite Z.lor_0_r. reflexivity.
  - destruct (Hbuf Hgt) as [Hb0 Hb1].
    rewrite !load8_ok by lia. cbn [obind].
    destruct (h265_nal_decode (byte_at m buf) (byte_at m (buf + 1))) as [d nal].
    cbn [fst]. destruct (Z.eqb_spec d 0) as [->|Hd]; cbn [negb].
    + destruct (h265_nal_encode H265_NAL_FU (nuh_temporal_id_plus1 nal)) as [h0 h1].
      rewrite !usize_small by lia.
      destruct (fu_loop_spec ts h0 h1 (maxlen - 3) ltac:(lia) fuel 0 (buf + 2) (len - 2)
                  (u8 (Z.lor (Z.shiftl 1 7) (nal_unit_type nal))) w)
        as (n & err' & w1 & cs & E & Hsent & Hmap & Herr & Hfit & Hpos); [lia|lia|].
      rewrite E. cbn [obind].
      assert (Hn : n = fu_count (len - 2) (maxlen - 3))
        by (apply fu_count_unique; lia).
      assert (Hn1 : n <> O) by (intros ->; cbn [Z.of_nat] in Hfit; lia).
      set (pk := Packet mk ts _ _ _).
      pose proof (call_pkth_sent pk w1) as Hs.
      destruct (call_pkth pk w1) as [e w2]. cbn [fst snd] in Hs.
      exists (Z.lor err' e), w2, (cs ++ [(pk, e)]).
      split; [reflexivity|]. split; [rewrite Hs, Hsent, app_assoc; reflexivity|].
      split.
      * rewrite map_app, Hmap, <- Hn. cbn [map fst]. f_equal.
        subst pk. destruct n as [|n']; [congruence|]. reflexivity.
      * rewrite Herr, map_app, lor_all_app. cbn [map snd lor_all fold_right].
        rewrite Z.lor_0_r. reflexivity.
    + exists d, w, []. rewrite app_nil_r. cbn [map lor_all fold_right].
      rewrite Z.lor_0_r. repeat split; reflexivity.
Qed.

End OneUnit.

(** ** The units of a buffer *)

Lemma sc3_at_inv (m : mem) (q : Z) :
  sc3_at m q = true ->
  base m <= q /\ q + 2 < mem_end m /\
  byte_at m q = 0 /\ byte_at m (q + 1) = 0 /\ byte_at m (q + 2) = 1.
Proof.
  unfold sc3_at, in_bounds. rewrite !andb_true_iff, !Z.eqb_eq, !Z.leb_le, !Z.ltb_lt.
  intros H. repeat split; try tauto; lia.
Qed.

Lemma find_post_unique (m : mem) (p e r r' : Z) :
  find_post m p e r -> find_post m p e r' -> r = r'.
Proof.
  intros [(H1 & H2 & H3 & H4)|[H1 H2]] [(K1 & K2 & K3 & K4)|[K1 K2]].
  - destruct (Z.lt_trichotomy r r') as [L|[L|L]]; [|assumption|].
    + rewrite K4 in H3 by lia. discriminate.
    + rewrite H4 in K3 by lia. discriminate.
  - rewrite K2 in H3 by lia. discriminate.
  - rewrite H2 in K3 by lia. discriminate.
  - congruence.
Qed.

Lemma find_post_range (m : mem) (p e r : Z) :
  p <= e -> find_post m p e r -> p <= r <= e /\ (r < e -> sc3_at m r = true /\ r + 3 < e).
Proof.
  intros Hp [(H1 & H2 & H3 & H4)|[H1 H2]]; split; try lia; intros; try lia.
  split; assumption.
Qed.

Lemma units_from_unique (m : mem) (e r : Z) (us us' : list (Z * Z)) :
  units_from m e r us -> units_from m e r us' -> us = us'.
Proof.
  intros H. revert us'. induction H as [r Hr|r r1 us Hr Hs Hf Hu IH]; intros us' H'.
  - inversion H'; subst; [reflexivity|lia].
  - inversion H' as [|r0 r1' us0 Hr' Hs' Hf' Hu']; subst; [lia|].
    assert (r1' = r1) by (eapply find_post_unique; eassumption). subst r1'.
    f_equal. apply IH. assumption.
Qed.

Lemma nal_units_unique (m : mem) (us us' : list (Z * Z)) :
  nal_units m us -> nal_units m us' -> us = us'.
Proof.
  intros (q & Hq & Hu) (q' & Hq' & Hu').
  assert (q' = q) by (eapply find_post_unique; eassumption). subst q'.
  eapply units_from_unique; eassumption.
Qed.

Lemma lor_shuffle (a d c D C : Z) :
  Z.lor (Z.lor a (Z.lor d c)) (Z.lor D C) = Z.lor a (Z.lor (Z.lor d D) (Z.lor c C)).
Proof.
  apply Z.bits_inj'. intros n Hn. rewrite !Z.lor_spec.
  destruct (Z.testbit a n), (Z.testbit d n), (Z.testbit c n), (Z.testbit D n);
    reflexivity.
Qed.

Section WholeBuffer.

Context {codec : H26x} {St : Type} {handler : Sink St}.

Lemma skip_zeros_at_sc (fuel : nat) (m : mem) (r : Z) :
  sc3_at m r = true -> (3 <= fuel)%nat -> skip_zeros fuel m r = Done (r + 3).
Proof.
  intros Hs Hf. apply sc3_at_inv in Hs. destruct Hs as (Hl & Hh & B0 & B1 & B2).
  destruct fuel as [|[|[|fuel]]]; try lia. cbn [skip_zeros].
  rewrite load8_ok, B0 by lia. cbn [obind Z.eqb].
  rewrite load8_ok, B1 by lia. cbn [obind Z.eqb].
  replace (r + 1 + 1) with (r + 2) by lia.
  rewrite load8_ok, B2 by lia. cbn [obind Z.eqb]. f_equal. lia.
Qed.

(** The unit loop, started at a start code or at the end of the buffer,
    sends the packets of the units that follow, one unit after the other. *)
Lemma nal_loop_spec (k : nat) (ts : Z) (m : mem) (pktsize : Z) :
  3 < pktsize < 2 ^ 64 -> mem_len m < 2 ^ 64 -> (Z.to_nat (mem_len m) <= k)%nat ->
  forall (fuel : nat) (r err : Z) (w : world St),
  base m <= r -> (r < mem_end m -> sc3_at m r = true /\ r + 3 < mem_end m) ->
  (Z.to_nat (mem_end m - r) <= fuel)%nat ->
  exists (us : list (Z * Z)) (err' : Z) (w' : world St) (cs : list (packet * Z)),
    units_from m (mem_end m) r us /\
    nal_loop k fuel ts m (mem_end m) pktsize r err w = Done (err', w') /\
    sent w' = sent w ++ cs /\
    map fst cs = flat_map (packets_of ts m pktsize) us /\
    err' = Z.lor err (Z.lor (lor_all (map (error_of m pktsize) us))
                            (lor_all (map snd cs))).
Proof.
  intros Hpk Hlen Hk. unfold mem_end in *.
  induction fuel as [|fuel IH]; intros r err w Hr Hsc Hfuel; cbn [nal_loop];
    fold (mem_end m) in *; destruct (Z.ltb_spec r (mem_end m)) as [Hlt|Hge];
    try (exists [], err, w, []; rewrite app_nil_r; cbn [map flat_map lor_all fold_right];
         rewrite Z.lor_0_r; repeat split; try reflexivity; constructor; lia).
  - lia.
  - destruct (Hsc Hlt) as [Hs Hr3]. unfold mem_end in Hr3, Hlt, Hfuel.
    rewrite skip_zeros_at_sc by (try assumption; lia). cbn [obind].
    destruct (find_startcode_spec k m (r + 3) (mem_end m)) as [[E F]|[r1 [E P]]];
      [lia|lia|unfold mem_end in F; lia|].
    rewrite E. cbn [obind].
    destruct (find_post_range m (r + 3) (mem_end m) r1) as [Hr1 Hsc1];
      [unfold mem_end; lia|assumption|].
    unfold mem_end in Hr1.
    rewrite usize_small by lia.
    destruct (packetize_spec k (mem_end m <=? r1) m (r + 3) (r1 - (r + 3)) pktsize ts w)
      as (e1 & w1 & cs1 & E1 & Hs1 & Hm1 & He1);
      [lia|lia|unfold mem_end; lia|lia|].
    rewrite E1. cbn [obind].
    destruct (IH r1 (Z.lor err e1) w1) as (us & err' & w' & cs & Hu & E2 & Hs2 & Hm2 & He2);
      [lia|assumption|unfold mem_end; lia|].
    exists ((r + 3, r1) :: us), err', w', (cs1 ++ cs).
    split; [constructor; try assumption; unfold mem_end; lia|].
    split; [assumption|].
    split; [rewrite Hs2, Hs1, app_assoc; reflexivity|].
    split.
    + rewrite map_app, Hm1, Hm2. reflexivity.
    + rewrite He2, He1, map_app, lor_all_app. cbn [map lor_all fold_right].
      apply lor_shuffle.
Qed.

(** A whole call: the packets of all units of the buffer, and the OR of all
    error codes. *)
Lemma h265_packetize_spec (fuel : nat) (ts : Z) (m : mem) (pktsize : Z) (w : world St) :
  3 < pktsize < 2 ^ 64 -> mem_len m < 2 ^ 64 -> (Z.to_nat (mem_len m) <= fuel)%nat ->
  exists (us : list (Z * Z)) (err : Z) (w' : world St) (cs : list (packet * Z)),
    nal_units m us /\
    h265_packetize fuel ts m pktsize w = Done (err, w') /\
    sent w' = sent w ++ cs /\
    map fst cs = flat_map (packets_of ts m pktsize) us /\
    err = Z.lor (lor_all (map (error_of m pktsize) us)) (lor_all (map snd cs)).
Proof.
  intros Hpk Hlen Hfuel. unfold h265_packetize. fold (mem_end m).
  assert (Hlen0 : 0 <= mem_len m) by (unfold mem_len; lia).
  destruct (find_startcode_spec fuel m (base m) (mem_end m)) as [[E F]|[q [E P]]];
    [lia|lia|unfold mem_end in F; lia|].
  rewrite E. cbn [obind].
  destruct (find_post_range m (base m) (mem_end m) q) as [Hq Hsc];
    [unfold mem_end; lia|assumption|].
  destruct (nal_loop_spec fuel ts m pktsize Hpk Hlen Hfuel fuel q 0 w)
    as (us & err & w' & cs & Hu & E2 & Hs & Hm & He);
    [lia|assumption|unfold mem_end in *; lia|].
  exists us, err, w', cs. split; [exists q; split; assumption|].
  repeat split; assumption.
Qed.

End WholeBuffer.

(** ** Packets of one unit *)



Lemma bytes_zero (m : mem) (a : Z) : bytes m a 0 = [].
Proof. reflexivity. Qed.


Lemma fu_list_forall (P : packet -> Prop) (ts h0 h1 flen : Z) (n : nat) :
  (forall h2 buf, P (Packet false ts [h0; h1; h2] buf flen)) ->
  forall h2 buf, Forall P (fu_list n ts h0 h1 h2 buf flen).
Proof.
  intros HP. induction n as [|n IH]; intros h2 buf; cbn [fu_list]; constructor.
  - apply HP.
  - apply IH.
Qed.

Lemma fu_list_length (ts h0 h1 flen : Z) (n : nat) :
  forall h2 buf, length (fu_list n ts h0 h1 h2 buf flen) = n.
Proof.
  induction n as [|n IH]; intros h2 buf; cbn [fu_list length]; [reflexivity|].
  rewrite IH. reflexivity.
Qed.

Section UnitPackets.

Context {codec : H26x}.

(** The shape of [unit_packets] for a unit that is fragmented. *)
Lemma unit_packets_fragmented (mk : bool) (ts : Z) (m : mem) (buf len maxlen : Z)
    (nal : h265_nal) :
  3 < maxlen < len ->
  h265_nal_decode (byte_at m buf) (byte_at m (buf + 1)) = (0, nal) ->
  exists (n : nat) (h0 h1 : Z),
    h265_nal_encode H265_NAL_FU (nuh_temporal_id_plus1 nal) = (h0, h1) /\
    (1 <= n)%nat /\
    0 < len - 2 - Z.of_nat n * (maxlen - 3) <= maxlen - 3 /\
    unit_packets mk ts m buf len maxlen =
      fu_list n ts h0 h1 (fu_first (nal_unit_type nal)) (buf + 2) (maxlen - 3) ++
      [Packet mk ts [h0; h1; set_end (clear_start (fu_first (nal_unit_type nal)))]
         (buf + 2 + Z.of_nat n * (maxlen - 3))
         (len - 2 - Z.of_nat n * (maxlen - 3))].
Proof.
  intros Hlen Hdec. unfold unit_packets.
  destruct (Z.leb_spec len maxlen); [lia|]. rewrite Hdec. cbn [Z.eqb negb].
  destruct (h265_nal_encode H265_NAL_FU (nuh_temporal_id_plus1 nal)) as [h0 h1].
  pose proof (fu_count_bounds (len - 2) (maxlen - 3) ltac:(lia) ltac:(lia)) as Hn.
  exists (fu_count (len - 2) (maxlen - 3)), h0, h1.
  split; [reflexivity|]. split; [|split; [assumption|reflexivity]].
  destruct (fu_count (len - 2) (maxlen - 3)); [cbn [Z.of_nat] in Hn|]; lia.
Qed.

End UnitPackets.

Section UnitTheorems.

Context {codec : H26x} {St : Type} {handler : Sink St}.


(** C10.  With [maxlen > 3] every packet sent for a unit fits the limit:
    header bytes plus payload bytes never exceed [maxlen].  An unfragmented
    unit is one packet without header and with at most [maxlen] payload
    bytes; a fragmented one is a run of packets with a 3-byte header and
    exactly [maxlen - 3] payload bytes, closed by a packet with a 3-byte
    header and between 1 and [maxlen - 3] payload bytes (or nothing at all
    when the header of the unit does not decode). *)
Theorem packets_fit (fuel : nat) (mk : bool) (m : mem)
    (buf len maxlen ts : Z) (w : world St) :
  3 < maxlen < 2 ^ 64 -> 0 <= len < 2 ^ 64 ->
  base m <= buf -> buf + len <= mem_end m ->
  (Z.to_nat len <= fuel)%nat ->
  exists (err : Z) (w' : world St) (cs : list (packet * Z)),
    packetize fuel mk m buf len maxlen ts w = Done (err, w') /\
    sent w' = sent w ++ cs /\
    Forall (fun pk => Z.of_nat (length (hdr pk)) + pld_len pk <= maxlen) (map fst cs) /\
    ((len <= maxlen /\
      exists pk, map fst cs = [pk] /\ hdr pk = [] /\ pld_len pk = len) \/
     (maxlen < len /\
      exists front last, map fst cs = front ++ [last] /\
        Forall (fun pk => length (hdr pk) = 3%nat /\ pld_len pk = maxlen - 3) front /\
        length (hdr last) = 3%nat /\ 1 <= pld_len last <= maxlen - 3) \/
     (maxlen < len /\ cs = [] /\
      fst (h265_nal_decode (byte_at m buf) (byte_at m (buf + 1))) <> 0)).
Proof.
  intros Hmax Hlen Hb He Hfuel.
  destruct (packetize_spec fuel mk m buf len maxlen ts w)
    as (err & w' & cs & E & Hs & Hm & _); [lia|lia|lia|assumption|].
  exists err, w', cs. split; [assumption|]. split; [assumption|].
  destruct (Z.le_gt_cases len maxlen) as [Hle|Hgt].
  - assert (Hu : unit_packets mk ts m buf len maxlen = [Packet mk ts [] buf len]).
    { unfold unit_packets. destruct (Z.leb_spec len maxlen); [reflexivity|lia]. }
    rewrite Hm, Hu. split.
    + repeat constructor. cbn [hdr pld_len length Z.of_nat]. lia.
    + left. split; [assumption|]. eexists. split; [reflexivity|]. split; reflexivity.
  - destruct (h265_nal_decode (byte_at m buf) (byte_at m (buf + 1))) as [d nal] eqn:Hdec.
    destruct (Z.eq_dec d 0) as [->|Hd].
    + destruct (unit_packets_fragmented mk ts m buf len maxlen nal)
        as (n & h0 & h1 & _ & Hn1 & Hn & Hu); [lia|assumption|].
      rewrite Hm, Hu. split.
      * apply Forall_app. split.
        -- apply fu_list_forall. intros. cbn [hdr pld_len length]. lia.
        -- repeat constructor. cbn [hdr pld_len length]. lia.
      * right. left. split; [assumption|].
        eexists. eexists. split; [reflexivity|]. split.
        -- apply fu_list_forall. intros. split; reflexivity.
        -- cbn [hdr pld_len length]. split; [reflexivity|lia].
    + assert (Hu : unit_packets mk ts m buf len maxlen = []).
      { unfold unit_packets. destruct (Z.leb_spec len maxlen); [lia|].
        rewrite Hdec. destruct (Z.eqb_spec d 0); [contradiction|reflexivity]. }
      rewrite Hu in Hm. destruct cs; [|discriminate]. split; [constructor|].
      right. right. repeat split; assumption.
Qed.

End UnitTheorems.

(** ** Buffers given by their bytes *)

Lemma mem_end_Mem (b : Z) (l : list byte) (be : bool) :
  mem_end (Mem b l be) = b + Z.of_nat (length l).
Proof. reflexivity. Qed.

Lemma byte_at_off (b : Z) (l : list byte) (be : bool) (k : Z) :
  byte_at (Mem b l be) (b + k) = byte_val (nth (Z.to_nat k) l x00).
Proof.
  unfold byte_at. cbn [base data]. replace (b + k - b) with k by lia. reflexivity.
Qed.

Lemma byte_at_shift (b : Z) (l : list byte) (be : bool) (k : Z) :
  byte_at (Mem b l be) (b + k) = byte_at (Mem 0 l false) k.
Proof.
  unfold byte_at. cbn [base data]. do 3 f_equal. lia.
Qed.

Lemma in_bounds_shift (b : Z) (l : list byte) (be : bool) (k : Z) :
  in_bounds (Mem b l be) (b + k) = in_bounds (Mem 0 l false) k.
Proof.
  unfold in_bounds. rewrite !mem_end_Mem. cbn [base].
  destruct (Z.leb_spec b (b + k)), (Z.leb_spec 0 k); try lia;
    destruct (Z.ltb_spec (b + k) (b + Z.of_nat (length l))),
             (Z.ltb_spec k (0 + Z.of_nat (length l))); try lia; reflexivity.
Qed.

Lemma sc3_at_off (b : Z) (l : list byte) (be : bool) (k : Z) :
  sc3_at (Mem b l be) (b + k) = sc3_at (Mem 0 l false) k.
Proof.
  unfold sc3_at.
  replace (b + k + 1) with (b + (k + 1)) by lia.
  replace (b + k + 2) with (b + (k + 2)) by lia.
  rewrite !byte_at_shift, !in_bounds_shift. reflexivity.
Qed.

Lemma contains_sc3_nth (l : list byte) :
  contains_sc3 l = false ->
  forall i : nat, (i + 2 < length l)%nat ->
  ~ (byte_val (nth i l x00) = 0 /\ byte_val (nth (i + 1) l x00) = 0 /\
     byte_val (nth (i + 2) l x00) = 1).
Proof.
  induction l as [|a l IH]; intros H i Hi; [cbn in Hi; lia|].
  cbn [contains_sc3] in H. apply orb_false_iff in H. destruct H as [H0 H1].
  destruct i as [|i].
  - destruct l as [|b0 [|c l]]; cbn [length] in Hi; try lia.
    cbn [nth Nat.add]. intros (A & B & C).
    rewrite A, B, C in H0. discriminate.
  - cbn [Nat.add nth]. apply IH; [assumption|]. cbn [length] in Hi. lia.
Qed.

Lemma no_sc3_tail (b : Z) (pre l : list byte) (be : bool) :
  contains_sc3 l = false ->
  no_sc3 (Mem b (pre ++ l) be) (b + Z.of_nat (length pre))
         (mem_end (Mem b (pre ++ l) be) - 2).
Proof.
  intros H i Hi. rewrite mem_end_Mem, length_app in Hi.
  apply sc3_at_false with (q1 := i + 1) (q2 := i + 2); cbn [base];
    try rewrite mem_end_Mem, length_app; try lia.
  pose proof (contains_sc3_nth l H (Z.to_nat (i - b - Z.of_nat (length pre)))
                ltac:(lia)) as N.
  assert (K : forall k, 0 <= k ->
            byte_at (Mem b (pre ++ l) be) (i + k) =
            byte_val (nth (Z.to_nat (i - b - Z.of_nat (length pre)) + Z.to_nat k) l x00)).
  { intros k Hk. replace (i + k) with (b + (i + k - b)) by lia.
    rewrite byte_at_off, app_nth2 by lia. f_equal. f_equal. lia. }
  pose proof (K 0 ltac:(lia)) as K0. pose proof (K 1 ltac:(lia)) as K1.
  pose proof (K 2 ltac:(lia)) as K2.
  rewrite Z.add_0_r in K0. change (Z.to_nat 0) with 0%nat in K0.
  rewrite Nat.add_0_r in K0.
  change (Z.to_nat 1) with 1%nat in K1. change (Z.to_nat 2) with 2%nat in K2.
  rewrite K0, K1, K2.
  destruct (Z.eq_dec (byte_val (nth (Z.to_nat (i - b - Z.of_nat (length pre))) l x00)) 0);
    [|left; assumption].
  destruct (Z.eq_dec (byte_val (nth (Z.to_nat (i - b - Z.of_nat (length pre)) + 1) l x00)) 0);
    [|right; left; assumption].
  right. right. intros C. apply N. repeat split; assumption.
Qed.

(** A buffer with one start code, at [q], holds one unit. *)
Lemma nal_units_single (m : mem) (q : Z) :
  base m <= q -> q + 3 < mem_end m -> sc3_at m q = true ->
  no_sc3 m (base m) q -> no_sc3 m (q + 3) (mem_end m - 3) ->
  nal_units m [(q + 3, mem_end m)].
Proof.
  intros Hq Hq3 Hs Hn1 Hn2. exists q. split.
  - left. repeat split; assumption.
  - apply units_next; [lia|assumption| |apply units_end; lia].
    right. split; [reflexivity|assumption].
Qed.

Section SingleUnit.

Context {codec : H26x} {St : Type} {handler : Sink St}.

Lemma h265_packetize_single (fuel : nat) (ts : Z) (m : mem) (pktsize : Z)
    (w : world St) (u : Z * Z) :
  3 < pktsize < 2 ^ 64 -> mem_len m < 2 ^ 64 -> (Z.to_nat (mem_len m) <= fuel)%nat ->
  nal_units m [u] ->
  exists (err : Z) (w' : world St) (cs : list (packet * Z)),
    h265_packetize fuel ts m pktsize w = Done (err, w') /\
    sent w' = sent w ++ cs /\
    map fst cs = packets_of ts m pktsize u /\
    err = Z.lor (error_of m pktsize u) (lor_all (map snd cs)).
Proof.
  intros Hpk Hlen Hfuel Hu.
  destruct (h265_packetize_spec fuel ts m pktsize w Hpk Hlen Hfuel)
    as (us & err & w' & cs & Hus & E & Hs & Hm & He).
  assert (us = [u]) by (eapply nal_units_unique; eassumption). subst us.
  exists err, w', cs. split; [assumption|]. split; [assumption|].
  cbn [flat_map map lor_all fold_right] in Hm, He.
  rewrite app_nil_r in Hm. rewrite Z.lor_0_r in He. split; assumption.
Qed.

End SingleUnit.

Section SmallUnit.

Context {codec : H26x} {St : Type} {handler : Sink St}.


End SmallUnit.


(** ** The bits of the fragmentation header *)

Lemma below_64 (P : Z -> bool) :
  forallb P (map Z.of_nat (seq 0 64)) = true ->
  forall t, 0 <= t < 64 -> P t = true.
Proof.
  intros H t Ht. rewrite forallb_forall in H. apply H.
  apply in_map_iff. exists (Z.to_nat t). split; [lia|].
  apply in_seq. lia.
Qed.

Lemma fu_first_bits (t : Z) :
  0 <= t < 64 ->
  Z.testbit (fu_first t) 7 = true /\ Z.testbit (fu_first t) 6 = false /\
  Z.land (fu_first t) 0x3f = t.
Proof.
  intros Ht.
  pose proof (below_64 (fun t => Z.testbit (fu_first t) 7 &&
                                 negb (Z.testbit (fu_first t) 6) &&
                                 (Z.land (fu_first t) 0x3f =? t)) eq_refl t Ht) as H.
  cbv beta in H. rewrite !andb_true_iff, negb_true_iff, Z.eqb_eq in H. tauto.
Qed.

Lemma fu_middle_bits (t : Z) :
  0 <= t < 64 ->
  Z.testbit (clear_start (fu_first t)) 7 = false /\
  Z.testbit (clear_start (fu_first t)) 6 = false /\
  Z.land (clear_start (fu_first t)) 0x3f = t.
Proof.
  intros Ht.
  pose proof (below_64 (fun t => negb (Z.testbit (clear_start (fu_first t)) 7) &&
                                 negb (Z.testbit (clear_start (fu_first t)) 6) &&
                                 (Z.land (clear_start (fu_first t)) 0x3f =? t))
                eq_refl t Ht) as H.
  cbv beta in H. rewrite !andb_true_iff, !negb_true_iff, Z.eqb_eq in H. tauto.
Qed.

Lemma fu_last_bits (t : Z) :
  0 <= t < 64 ->
  Z.testbit (set_end (clear_start (fu_first t))) 7 = false /\
  Z.testbit (set_end (clear_start (fu_first t))) 6 = true /\
  Z.land (set_end (clear_start (fu_first t))) 0x3f = t.
Proof.
  intros Ht.
  pose proof (below_64 (fun t => negb (Z.testbit (set_end (clear_start (fu_first t))) 7) &&
                                 Z.testbit (set_end (clear_start (fu_first t))) 6 &&
                                 (Z.land (set_end (clear_start (fu_first t))) 0x3f =? t))
                eq_refl t Ht) as H.
  cbv beta in H. rewrite !andb_true_iff, !negb_true_iff, Z.eqb_eq in H. tauto.
Qed.

Section Scenario.

Context {codec : H26x} {St : Type} {handler : Sink St}.

(** C4 (as amended).  A buffer made of a 4-byte start code, a 2-byte unit
    header that decodes to a 6-bit unit type, and 4000 payload bytes, with
    no start code inside the unit, is sent with a limit of 1000 as exactly
    5 packets: four with 997 payload bytes and a last one with 12.  The
    first has Start = 1 and End = 0, the three in the middle Start = 0 and
    End = 0, the last Start = 0 and End = 1; only the last carries the
    marker.  All five carry the same first two header bytes (the
    fragmentation-unit type with the temporal id of the unit) and the type
    of the unit in the low six bits of the third. *)
Theorem fragmented_unit_scenario (fuel : nat) (ts b : Z) (be : bool)
    (h0 h1 : byte) (body : list byte) (w : world St) (nal : h265_nal) :
  length body = 4000%nat ->
  contains_sc3 (h0 :: h1 :: body) = false ->
  h265_nal_decode (byte_val h0) (byte_val h1) = (0, nal) ->
  0 <= nal_unit_type nal < 64 ->
  (4006 <= fuel)%nat ->
  let m := Mem b ([x00; x00; x00; x01; h0; h1] ++ body) be in
  let fu := h265_nal_encode H265_NAL_FU (nuh_temporal_id_plus1 nal) in
  exists (err : Z) (w' : world St) (cs : list (packet * Z)) (p1 p2 p3 p4 p5 : packet),
    h265_packetize fuel ts m 1000 w = Done (err, w') /\
    sent w' = sent w ++ cs /\
    map fst cs = [p1; p2; p3; p4; p5] /\
    map pld_len [p1; p2; p3; p4; p5] = [997; 997; 997; 997; 12] /\
    (fu_start p1 = true /\ fu_end p1 = false /\ marker p1 = false) /\
    Forall (fun p => fu_start p = false /\ fu_end p = false /\ marker p = false)
           [p2; p3; p4] /\
    (fu_start p5 = false /\ fu_end p5 = true /\ marker p5 = true) /\
    Forall (fun p => firstn 2 (hdr p) = [fst fu; snd fu] /\ length (hdr p) = 3%nat /\
                     fu_type p = nal_unit_type nal)
           [p1; p2; p3; p4; p5].
Proof.
  intros Hlen Hsc Hdec Hty Hfuel m fu.
  assert (Hend : mem_end m = b + 4006).
  { subst m. rewrite mem_end_Mem, length_app, Hlen. reflexivity. }
  assert (Hml : mem_len m = 4006).
  { subst m. unfold mem_len. cbn [data]. rewrite length_app, Hlen. reflexivity. }
  assert (Hu : nal_units m [(b + 4, mem_end m)]).
  { replace (b + 4) with (b + 1 + 3) by lia.
    apply nal_units_single; rewrite ?Hend; cbn [base m]; try lia.
    - apply (sc3_at_bytes m (b + 1) (b + 2) (b + 3)); rewrite ?Hend; cbn [base m]; try lia.
      subst m. rewrite !byte_at_off. repeat split.
    - intros i Hi. assert (i = b) by lia. subst i.
      apply (sc3_at_false m b (b + 1) (b + 2)); rewrite ?Hend; cbn [base m]; try lia.
      right. right. subst m. rewrite byte_at_off. discriminate.
    - replace (b + 1 + 3) with (b + Z.of_nat (length [x00; x00; x00; x01])) by (cbn; lia).
      apply no_sc3_weaken with (q := mem_end m - 2); [lia|].
      subst m. apply (no_sc3_tail b [x00; x00; x00; x01] (h0 :: h1 :: body) be Hsc). }
  destruct (h265_packetize_single fuel ts m 1000 w (b + 4, mem_end m))
    as (err & w' & cs & E & Hs & Hm & He);
    [lia|lia|lia|assumption|].
  unfold packets_of in Hm. cbn [fst snd] in Hm. rewrite Z.leb_refl, Hend in Hm.
  replace (b + 4006 - (b + 4)) with 4002 in Hm by lia.
  assert (Hdec' : h265_nal_decode (byte_at m (b + 4)) (byte_at m (b + 4 + 1)) = (0, nal)).
  { subst m. replace (b + 4 + 1) with (b + 5) by lia. rewrite !byte_at_off. exact Hdec. }
  destruct (unit_packets_fragmented true ts m (b + 4) 4002 1000 nal)
    as (n & e0 & e1 & Henc & Hn1 & Hn & Hup); [lia|assumption|].
  assert (n = 4%nat) by lia. subst n.
  rewrite Hup in Hm. cbn [fu_list app] in Hm.
  destruct (fu_first_bits _ Hty) as (F7 & F6 & Ft).
  destruct (fu_middle_bits _ Hty) as (M7 & M6 & Mt).
  destruct (fu_last_bits _ Hty) as (L7 & L6 & Lt).
  rewrite !clear_start_idem in Hm.
  subst fu. rewrite Henc. cbn [fst snd].
  do 8 eexists. split; [eassumption|]. split; [eassumption|]. split; [eassumption|].
  unfold fu_start, fu_end, fu_type, fu_byte. cbn [hdr marker pld_len nth map firstn length].
  repeat (split || constructor); try assumption; try reflexivity.
Qed.

End Scenario.

(** ** Markers, errors and termination of a whole call *)

Lemma land_lor_l (a b x : Z) : Z.land a x = x -> Z.land (Z.lor a b) x = x.
Proof.
  intros H. apply Z.bits_inj'. intros n Hn.
  assert (K : Z.testbit (Z.land a x) n = Z.testbit x n) by (rewrite H; reflexivity).
  rewrite Z.land_spec in K. rewrite Z.land_spec, Z.lor_spec.
  destruct (Z.testbit a n), (Z.testbit b n), (Z.testbit x n); try reflexivity; discriminate.
Qed.

Lemma land_lor_r (a b x : Z) : Z.land b x = x -> Z.land (Z.lor a b) x = x.
Proof. intros H. rewrite Z.lor_comm. apply land_lor_l. assumption. Qed.

Lemma lor_all_in (l : list Z) (x : Z) : In x l -> Z.land (lor_all l) x = x.
Proof.
  induction l as [|y l IH]; intros H; [contradiction|].
  cbn [lor_all fold_right]. fold (lor_all l). destruct H as [->|H].
  - apply land_lor_l. apply Z.land_diag.
  - apply land_lor_r. apply IH. assumption.
Qed.

Lemma units_from_last (m : mem) (e r : Z) (us : list (Z * Z)) :
  units_from m e r us ->
  forall (i : nat) (u : Z * Z), nth_error us i = Some u ->
  ((e <=? snd u) = true <-> S i = length us).
Proof.
  induction 1 as [r Hr|r r1 us Hr Hs Hf Hu IH]; intros i u Hi.
  - destruct i; discriminate.
  - destruct i as [|i]; cbn [nth_error length] in *.
    + inversion Hi; subst u. cbn [snd]. rewrite Z.leb_le. split.
      * intros Hle. inversion Hu; subst; [reflexivity|lia].
      * intros Hlen. destruct us; [|discriminate].
        inversion Hu; subst. assumption.
    + rewrite (IH i u Hi). lia.
Qed.

Section Markers.

Context {codec : H26x}.

Lemma unit_packets_marker (mk : bool) (ts : Z) (m : mem) (buf len maxlen : Z)
    (j : nat) (pk : packet) :
  3 < maxlen ->
  nth_error (unit_packets mk ts m buf len maxlen) j = Some pk ->
  (marker pk = true <-> mk = true /\ S j = length (unit_packets mk ts m buf len maxlen)).
Proof.
  intros Hmax Hj.
  destruct (Z.le_gt_cases len maxlen) as [Hle|Hgt].
  - assert (Hu : unit_packets mk ts m buf len maxlen = [Packet mk ts [] buf len]).
    { unfold unit_packets. destruct (Z.leb_spec len maxlen); [reflexivity|lia]. }
    rewrite Hu in *. destruct j as [|[|j]]; try discriminate.
    inversion Hj; subst pk. cbn [marker length]. tauto.
  - destruct (h265_nal_decode (byte_at m buf) (byte_at m (buf + 1))) as [d nal] eqn:Hdec.
    destruct (Z.eq_dec d 0) as [->|Hd].
    + destruct (unit_packets_fragmented mk ts m buf len maxlen nal)
        as (n & h0 & h1 & _ & Hn1 & Hn & Hu); [lia|assumption|].
      rewrite Hu in *. rewrite length_app, fu_list_length. cbn [length].
      destruct (Nat.lt_ge_cases j n) as [Hlt|Hge].
      * rewrite nth_error_app1 in Hj by (rewrite fu_list_length; assumption).
        apply nth_error_In in Hj.
        pose proof (fu_list_forall (fun p => marker p = false) ts h0 h1 (maxlen - 3) n
                      (fun _ _ => eq_refl) (fu_first (nal_unit_type nal)) (buf + 2)) as F.
        rewrite Forall_forall in F. rewrite (F pk Hj). split; [discriminate|lia].
      * rewrite nth_error_app2 in Hj by (rewrite fu_list_length; assumption).
        rewrite fu_list_length in Hj.
        destruct (j - n)%nat as [|[|k]] eqn:Ek; try discriminate.
        inversion Hj; subst pk. cbn [marker]. split; [intros ->; split; [reflexivity|lia]|tauto].
    + assert (Hu : unit_packets mk ts m buf len maxlen = []).
      { unfold unit_packets. destruct (Z.leb_spec len maxlen); [lia|].
        rewrite Hdec. destruct (Z.eqb_spec d 0); [contradiction|reflexivity]. }
      rewrite Hu in Hj. destruct j; discriminate.
Qed.

End Markers.

Section WholeCall.

Context {codec : H26x} {St : Type} {handler : Sink St}.

(** C6 (as amended).  In one call, the packets sent are those of the units
    of the buffer, unit after unit, and a packet carries the marker exactly
    when it is the last packet of the last unit: the packets of earlier
    units do not carry it, and neither do the fragments of the last unit
    that come before its final fragment. *)
Theorem marker_on_final_packet (fuel : nat) (ts : Z) (m : mem) (pktsize : Z) (w : world St) :
  3 < pktsize < 2 ^ 64 -> mem_len m < 2 ^ 64 -> (Z.to_nat (mem_len m) <= fuel)%nat ->
  exists (us : list (Z * Z)) (err : Z) (w' : world St) (cs : list (packet * Z)),
    nal_units m us /\
    h265_packetize fuel ts m pktsize w = Done (err, w') /\
    sent w' = sent w ++ cs /\
    map fst cs = flat_map (packets_of ts m pktsize) us /\
    forall (i : nat) (u : Z * Z) (j : nat) (pk : packet),
      nth_error us i = Some u ->
      nth_error (packets_of ts m pktsize u) j = Some pk ->
      (marker pk = true <->
       S i = length us /\ S j = length (packets_of ts m pktsize u)).
Proof.
  intros Hpk Hlen Hfuel.
  destruct (h265_packetize_spec fuel ts m pktsize w Hpk Hlen Hfuel)
    as (us & err & w' & cs & Hus & E & Hs & Hm & He).
  exists us, err, w', cs. repeat (split; [assumption|]).
  intros i u j pk Hi Hj. destruct Hus as (q & Hq & Hu).
  unfold packets_of in *.
  assert (H3 : 3 < pktsize) by lia.
  rewrite (unit_packets_marker _ _ _ _ _ _ _ _ H3 Hj).
  rewrite (units_from_last _ _ _ _ Hu i u Hi). tauto.
Qed.

(** C8.  The result of a call is the bitwise OR of the decoder's error code
    of every unit and of what the handler returned for every packet.  The
    packets handed to the handler are those of all units of the buffer, in
    order, whatever the handler returned before and whatever happened to
    earlier units.  A unit that has to be fragmented and whose header does
    not decode gives no packet, and its error code is part of the
    result. *)
Theorem errors_are_collected (fuel : nat) (ts : Z) (m : mem) (pktsize : Z) (w : world St) :
  3 < pktsize < 2 ^ 64 -> mem_len m < 2 ^ 64 -> (Z.to_nat (mem_len m) <= fuel)%nat ->
  exists (us : list (Z * Z)) (err : Z) (w' : world St) (cs : list (packet * Z)),
    nal_units m us /\
    h265_packetize fuel ts m pktsize w = Done (err, w') /\
    sent w' = sent w ++ cs /\
    map fst cs = flat_map (packets_of ts m pktsize) us /\
    err = Z.lor (lor_all (map (error_of m pktsize) us)) (lor_all (map snd cs)) /\
    (forall u : Z * Z, In u us -> pktsize < snd u - fst u ->
       let d := fst (h265_nal_decode (byte_at m (fst u)) (byte_at m (fst u + 1))) in
       d <> 0 ->
       packets_of ts m pktsize u = [] /\ error_of m pktsize u = d /\ Z.land err d = d) /\
    (forall (pk : packet) (e : Z), In (pk, e) cs -> Z.land err e = e).
Proof.
  intros Hpk Hlen Hfuel.
  destruct (h265_packetize_spec fuel ts m pktsize w Hpk Hlen Hfuel)
    as (us & err & w' & cs & Hus & E & Hs & Hm & He).
  exists us, err, w', cs. repeat (split; [assumption|]). split.
  - intros u Hu Hbig d Hd.
    assert (Herr : error_of m pktsize u = d).
    { unfold error_of, unit_decode_error.
      destruct (Z.leb_spec (snd u - fst u) pktsize); [lia|reflexivity]. }
    split; [|split; [assumption|]].
    + unfold packets_of, unit_packets.
      destruct (Z.leb_spec (snd u - fst u) pktsize); [lia|].
      subst d. destruct (h265_nal_decode (byte_at m (fst u)) (byte_at m (fst u + 1)))
        as [d0 nal]. cbn [fst] in Hd.
      destruct (Z.eqb_spec d0 0); [contradiction|reflexivity].
    + rewrite He. apply land_lor_l. apply lor_all_in.
      rewrite <- Herr. apply in_map. assumption.
  - intros pk e Hin. rewrite He. apply land_lor_r. apply lor_all_in.
    change e with (snd (pk, e)). apply in_map. assumption.
Qed.

(** C9.  With a limit above 3 a call returns, for every buffer and every
    timestamp: fuel for as many rounds as the buffer has bytes is never
    used up (and no read leaves the buffer).  Each round of the unit loop
    moves the scan position forward, towards the end of the buffer, and
    each round of the fragmentation loop leaves fewer payload bytes. *)
Theorem h265_packetize_terminates (fuel : nat) (ts : Z) (m : mem) (pktsize : Z)
    (w : world St) :
  3 < pktsize < 2 ^ 64 -> mem_len m < 2 ^ 64 -> (Z.to_nat (mem_len m) <= fuel)%nat ->
  (exists (err : Z) (w' : world St),
     h265_packetize fuel ts m pktsize w = Done (err, w')) /\
  (forall r : Z, base m <= r < mem_end m -> sc3_at m r = true ->
     exists r' r1 : Z,
       skip_zeros fuel m r = Done r' /\
       h265_find_startcode fuel m r' (mem_end m) = Done r1 /\
       r < r1 <= mem_end m) /\
  (forall len : Z, usize (pktsize - 3) < len < 2 ^ 64 ->
     0 <= usize (len - usize (pktsize - 3)) < len).
Proof.
  intros Hpk Hlen Hfuel. split; [|split].
  - destruct (h265_packetize_spec fuel ts m pktsize w Hpk Hlen Hfuel)
      as (us & err & w' & cs & Hus & E & _).
    exists err, w'. assumption.
  - intros r Hr Hs. pose proof (sc3_at_inv m r Hs) as (Hl & Hh & _).
    unfold mem_end in Hh.
    rewrite skip_zeros_at_sc by (try assumption; lia).
    destruct (find_startcode_spec fuel m (r + 3) (mem_end m)) as [[E F]|[r1 [E P]]];
      [lia|lia|unfold mem_end in F; lia|].
    exists (r + 3), r1. split; [reflexivity|]. split; [assumption|].
    destruct P as [(H1 & H2 & _)|[H1 _]]; unfold mem_end in *; lia.
  - intros len Hl. rewrite (usize_small (pktsize - 3)) in * by lia.
    rewrite usize_small by lia. lia.
Qed.

End WholeCall.

(** ** The theorems at concrete inputs *)


Lemma packets_fit_witness :
  let m := mem_of 1000 [x26; x01; xa1; xa2; xa3; xa4; xa5; xa6; xa7; xa8] in
  exists (err : Z) (w' : world unit) (cs : list (packet * Z)),
    packetize (codec := spec_codec) (handler := ok_sink)
      10 true m 1000 10 5 90000 (World tt []) = Done (err, w') /\
    sent w' = [] ++ cs /\
    Forall (fun pk => Z.of_nat (length (hdr pk)) + pld_len pk <= 5) (map fst cs) /\
    ((10 <= 5 /\
      exists pk, map fst cs = [pk] /\ hdr pk = [] /\ pld_len pk = 10) \/
     (5 < 10 /\
      exists front last, map fst cs = front ++ [last] /\
        Forall (fun pk => length (hdr pk) = 3%nat /\ pld_len pk = 5 - 3) front /\
        length (hdr last) = 3%nat /\ 1 <= pld_len last <= 5 - 3) \/
     (5 < 10 /\ cs = [] /\
      fst (h265_nal_decode (H26x := spec_codec) (byte_at m 1000) (byte_at m (1000 + 1))) <> 0)).
Proof.
  intro m.
  apply (packets_fit (codec := spec_codec) (handler := ok_sink)
           10 true m 1000 10 5 90000 (World tt []));
    try lia; vm_compute; discriminate.
Defined.

Lemma fragmented_unit_scenario_witness :
  let body := repeat xaa 4000 in
  let m := Mem 4096 ([x00; x00; x00; x01; x26; x01] ++ body) false in
  let fu := h265_nal_encode (H26x := spec_codec) 49 1 in
  exists (err : Z) (w' : world unit) (cs : list (packet * Z)) (p1 p2 p3 p4 p5 : packet),
    h265_packetize (codec := spec_codec) (handler := ok_sink)
      4006 90000 m 1000 (World tt []) = Done (err, w') /\
    sent w' = [] ++ cs /\
    map fst cs = [p1; p2; p3; p4; p5] /\
    map pld_len [p1; p2; p3; p4; p5] = [997; 997; 997; 997; 12] /\
    (fu_start p1 = true /\ fu_end p1 = false /\ marker p1 = false) /\
    Forall (fun p => fu_start p = false /\ fu_end p = false /\ marker p = false)
           [p2; p3; p4] /\
    (fu_start p5 = false /\ fu_end p5 = true /\ marker p5 = true) /\
    Forall (fun p => firstn 2 (hdr p) = [fst fu; snd fu] /\ length (hdr p) = 3%nat /\
                     fu_type p = 19)
           [p1; p2; p3; p4; p5].
Proof.
  intros body m fu.
  apply (fragmented_unit_scenario (codec := spec_codec) (handler := ok_sink)
           4006 90000 4096 false x26 x01 body (World tt []) (Nal 19 1)).
  - apply repeat_length.
  - vm_compute. reflexivity.
  - reflexivity.
  - cbn [nal_unit_type]. lia.
  - lia.
Defined.

(** C4 as stated fails: on such a buffer (header [26 01], 4000 payload
    bytes [AA]) the limit of 1000 leaves 997 payload bytes per packet, and
    the call sends five packets, not four. *)
Lemma fragmented_unit_five_packets :
  let m := mem_of 4096 ([x00; x00; x00; x01; x26; x01] ++ repeat xaa 4000) in
  exists w' : world unit,
    h265_packetize (codec := spec_codec) (handler := ok_sink)
      4006 90000 m 1000 (World tt []) = Done (0, w') /\
    length (sent w') = 5%nat /\ length (sent w') <> 4%nat /\
    map (fun c => pld_len (fst c)) (sent w') = [997; 997; 997; 997; 12].
Proof.
  intro m. eexists. split; [vm_compute; reflexivity|].
  vm_compute. repeat split. discriminate.
Qed.

Lemma marker_on_final_packet_witness :
  let m := mem_of 1000 [x00; x00; x01; x26; x01; xa1; xa2; xa3; xa4; xa5; xa6] in
  exists (us : list (Z * Z)) (err : Z) (w' : world unit) (cs : list (packet * Z)),
    nal_units m us /\
    h265_packetize (codec := spec_codec) (handler := ok_sink)
      11 90000 m 5 (World tt []) = Done (err, w') /\
    sent w' = [] ++ cs /\
    map fst cs = flat_map (packets_of (codec := spec_codec) 90000 m 5) us /\
    forall (i : nat) (u : Z * Z) (j : nat) (pk : packet),
      nth_error us i = Some u ->
      nth_error (packets_of (codec := spec_codec) 90000 m 5 u) j = Some pk ->
      (marker pk = true <->
       S i = length us /\ S j = length (packets_of (codec := spec_codec) 90000 m 5 u)).
Proof.
  intro m.
  apply (marker_on_final_packet (codec := spec_codec) (handler := ok_sink)
           11 90000 m 5 (World tt [])); [lia|vm_compute; reflexivity|vm_compute; lia].
Defined.

(** C6 as stated fails on a last unit that is fragmented: the buffer below
    holds one unit, of 8 bytes, sent with a limit of 5 as three fragments,
    and the first two of them do not carry the marker. *)
Lemma marker_missing_on_first_fragments :
  let m := mem_of 1000 [x00; x00; x01; x26; x01; xa1; xa2; xa3; xa4; xa5; xa6] in
  nal_units m [(1003, 1011)] /\
  exists w' : world unit,
    h265_packetize (codec := spec_codec) (handler := ok_sink)
      11 90000 m 5 (World tt []) = Done (0, w') /\
    map (fun c => (marker (fst c), pld (fst c), pld_len (fst c))) (sent w') =
      [(false, 1005, 2); (false, 1007, 2); (true, 1009, 2)].
Proof.
  intro m. split.
  - apply (nal_units_single m 1000).
    + vm_compute. discriminate.
    + vm_compute. reflexivity.
    + reflexivity.
    + intros i Hi. change (base m) with 1000 in Hi. lia.
    + intros i Hi. change (mem_end m - 3) with 1008 in Hi.
      change (1000 + 3) with 1003 in Hi.
      assert (i = 1003 \/ i = 1004 \/ i = 1005 \/ i = 1006 \/ i = 1007)
        as [ -> | [ -> | [ -> | [ -> | -> ] ] ] ] by lia; reflexivity.
  - eexists. split; vm_compute; reflexivity.
Qed.

Lemma errors_are_collected_witness :
  let m := mem_of 1000 [x00; x00; x01; xa6; x01; x11; x22; x33; x44; x55;
                        x00; x00; x01; x26; x01; xaa] in
  exists (us : list (Z * Z)) (err : Z) (w' : world nat) (cs : list (packet * Z)),
    nal_units m us /\
    h265_packetize (codec := strict_codec) (handler := flaky_sink)
      16 90000 m 4 (World 0%nat []) = Done (err, w') /\
    sent w' = [] ++ cs /\
    map fst cs = flat_map (packets_of (codec := strict_codec) 90000 m 4) us /\
    err = Z.lor (lor_all (map (error_of (codec := strict_codec) m 4) us))
                (lor_all (map snd cs)) /\
    (forall u : Z * Z, In u us -> 4 < snd u - fst u ->
       let d := fst (h265_nal_decode (H26x := strict_codec)
                       (byte_at m (fst u)) (byte_at m (fst u + 1))) in
       d <> 0 ->
       packets_of (codec := strict_codec) 90000 m 4 u = [] /\
       error_of (codec := strict_codec) m 4 u = d /\ Z.land err d = d) /\
    (forall (pk : packet) (e : Z), In (pk, e) cs -> Z.land err e = e).
Proof.
  intro m.
  apply (errors_are_collected (codec := strict_codec) (handler := flaky_sink)
           16 90000 m 4 (World 0%nat [])); [lia|vm_compute; reflexivity|vm_compute; lia].
Defined.

(** The run behind the witness of C8: the first unit is too long for one
    packet and its header is refused (74), the second unit is sent although
    the first failed, the handler rejects its packet (12), and the call
    returns 74 | 12. *)
Example errors_example :
  let m := mem_of 1000 [x00; x00; x01; xa6; x01; x11; x22; x33; x44; x55;
                        x00; x00; x01; x26; x01; xaa] in
  h265_packetize (codec := strict_codec) (handler := flaky_sink)
    16 90000 m 4 (World 0%nat []) =
  Done (78, World 1%nat [(Packet true 90000 [] 1013 3, 12)]).
Proof. vm_compute. reflexivity. Qed.

Lemma h265_packetize_terminates_witness :
  let m := mem_of 1000 [x00; x00; x01; x26; x01; xa1; xa2; xa3; xa4; xa5; xa6] in
  (exists (err : Z) (w' : world unit),
     h265_packetize (codec := spec_codec) (handler := ok_sink)
       11 90000 m 4 (World tt []) = Done (err, w')) /\
  (forall r : Z, base m <= r < mem_end m -> sc3_at m r = true ->
     exists r' r1 : Z,
       skip_zeros 11 m r = Done r' /\
       h265_find_startcode 11 m r' (mem_end m) = Done r1 /\
       r < r1 <= mem_end m) /\
  (forall len : Z, usize (4 - 3) < len < 2 ^ 64 ->
     0 <= usize (len - usize (4 - 3)) < len).
Proof.
  intro m.
  apply (h265_packetize_terminates (codec := spec_codec) (handler := ok_sink)
           11 90000 m 4 (World tt [])); [lia|vm_compute; reflexivity|vm_compute; lia].
Defined.


(** With a limit of exactly 3 no payload byte fits beside the fragmentation
    header and the fragmentation loop does not advance: the bound on the
    limit in the theorems above is needed. *)
Example limit_three_spins :
  let m := mem_of 1000 [x26; x01; xa1; xa2; xa3; xa4; xa5; xa6; xa7; xa8] in
  packetize (codec := spec_codec) (handler := ok_sink)
    1000 true m 1000 10 3 90000 (World tt []) = OutOfFuel.
Proof. vm_compute. reflexivity. Qed.

(** * Further properties of the code *)

(** ** h265_have_startcode and h265_skip_startcode together *)

Lemma memcmp_sc3 (m : mem) (p : Z) :
  base m <= p -> p + 3 <= mem_end m ->
  memcmp_eq m p sc3 = Done (sc3_prefix m p).
Proof.
  intros Hl Hh. unfold sc3, sc3_prefix. cbn [memcmp_eq].
  replace (p + 1 + 1) with (p + 2) by lia.
  rewrite !load8_ok by lia. cbn [obind].
  rewrite andb_true_r, andb_assoc. reflexivity.
Qed.

Lemma memcmp_sc4 (m : mem) (p : Z) :
  base m <= p -> p + 4 <= mem_end m ->
  memcmp_eq m p sc4 = Done (sc4_prefix m p).
Proof.
  intros Hl Hh. unfold sc4, sc4_prefix. cbn [memcmp_eq].
  replace (p + 1 + 1) with (p + 2) by lia.
  replace (p + 2 + 1) with (p + 3) by lia.
  rewrite !load8_ok by lia. cbn [obind].
  rewrite andb_true_r, !andb_assoc. reflexivity.
Qed.

(** X1.  [h265_have_startcode] on [len] readable bytes at [p] reads no byte
    beyond them and answers true exactly when the bytes begin with the
    four-byte start code (and [len >= 4]) or with the three-byte one (and
    [len >= 3]); with fewer than three bytes it answers false without
    reading anything, whatever [p] is. *)
Theorem have_startcode_spec (m : mem) (p len : Z) :
  (3 <= len -> base m <= p /\ p + len <= mem_end m) ->
  h265_have_startcode m p len =
  Done ((4 <=? len) && sc4_prefix m p || (3 <=? len) && sc3_prefix m p).
Proof.
  intros Hb. unfold h265_have_startcode.
  destruct (Z.leb_spec 4 len) as [H4|H4]; destruct (Z.leb_spec 3 len) as [H3|H3];
    try lia; cbn [andb orb obind].
  - destruct (Hb H3) as [Hl Hh].
    rewrite memcmp_sc4 by lia. cbn [obind].
    destruct (sc4_prefix m p); cbn [orb]; [reflexivity|].
    rewrite memcmp_sc3 by lia. cbn [obind]. destruct (sc3_prefix m p); reflexivity.
  - destruct (Hb H3) as [Hl Hh].
    rewrite memcmp_sc3 by lia. cbn [obind]. destruct (sc3_prefix m p); reflexivity.
  - reflexivity.
Qed.

Lemma have_startcode_spec_witness :
  let m := mem_of 1000 [x00; x00; x00; x01; x26] in
  h265_have_startcode m 1000 5 =
  Done ((4 <=? 5) && sc4_prefix m 1000 || (3 <=? 5) && sc3_prefix m 1000).
Proof.
  intro m. apply (have_startcode_spec m 1000 5). intros _. vm_compute.
  split; discriminate.
Defined.

(** X2.  The two functions agree when at least four bytes are left, and
    [h265_skip_startcode] never moves where [h265_have_startcode] sees no
    start code: the position moves only if a start code is reported, it
    moves by exactly what the remaining length loses, and with four or more
    bytes left it moves whenever a start code is reported: by 4 over the
    four-byte form, which is tried first, and by 3 over the three-byte
    form. *)
Theorem skip_agrees_with_have (m : mem) (p n : Z) :
  base m <= p -> 0 <= n < 2 ^ 64 -> p + n <= mem_end m ->
  exists (b : bool) (p' n' : Z),
    h265_have_startcode m p n = Done b /\
    h265_skip_startcode m p n = Done (p', n') /\
    p' + n' = p + n /\ 0 <= n' <= n /\
    (p' <> p -> b = true) /\
    (4 <= n -> b = true -> p' <> p) /\
    (4 <= n ->
     p' = if sc4_prefix m p then p + 4 else if sc3_prefix m p then p + 3 else p).
Proof.
  intros Hl Hn Hh. rewrite have_startcode_spec by (intros; lia).
  unfold h265_skip_startcode.
  destruct (Z.ltb_spec n 4) as [H4|H4].
  - eexists _, p, n. split; [reflexivity|]. split; [reflexivity|].
    repeat split; try lia; try (intros N; contradiction).
  - destruct (Z.leb_spec 4 n); [|lia]. destruct (Z.leb_spec 3 n); [|lia].
    cbn [andb]. rewrite memcmp_sc4 by lia. cbn [obind].
    destruct (sc4_prefix m p); cbn [orb].
    + eexists _, (p + 4), (usize (n - 4)). rewrite usize_small by lia.
      split; [reflexivity|]. split; [reflexivity|]. repeat split; lia.
    + rewrite memcmp_sc3 by lia. cbn [obind]. destruct (sc3_prefix m p).
      * eexists _, (p + 3), (usize (n - 3)). rewrite usize_small by lia.
        split; [reflexivity|]. split; [reflexivity|]. repeat split; lia.
      * eexists _, p, n. split; [reflexivity|]. split; [reflexivity|].
        repeat split; try lia; try (intros N; contradiction);
          try (intros _ N; discriminate).
Qed.

Lemma skip_agrees_with_have_witness :
  let m := mem_of 1000 [x00; x00; x01; x26; x01] in
  exists (b : bool) (p' n' : Z),
    h265_have_startcode m 1000 5 = Done b /\
    h265_skip_startcode m 1000 5 = Done (p', n') /\
    p' + n' = 1000 + 5 /\ 0 <= n' <= 5 /\
    (p' <> 1000 -> b = true) /\
    (4 <= 5 -> b = true -> p' <> 1000) /\
    (4 <= 5 ->
     p' = if sc4_prefix m 1000 then 1000 + 4
          else if sc3_prefix m 1000 then 1000 + 3 else 1000).
Proof.
  intro m. apply (skip_agrees_with_have m 1000 5); vm_compute; try discriminate.
  split; [discriminate|reflexivity].
Defined.

(** ** More on the scanner *)

Lemma naive_scan_spec (m : mem) (n : nat) :
  forall p, let q := naive_scan n m p in
  p <= q <= p + Z.of_nat n /\ no_sc3 m p q /\ (q < p + Z.of_nat n -> sc3_at m q = true).
Proof.
  induction n as [|n IH]; intros p; cbn [naive_scan].
  - cbn [Z.of_nat]. repeat split; try lia. intros i Hi. lia.
  - destruct (sc3_at m p) eqn:Hs.
    + repeat split; try lia; [intros i Hi; lia|intros _; assumption].
    + destruct (IH (p + 1)) as (Hq & Hn & Hf). cbv zeta in *.
      repeat split; try lia; [apply no_sc3_step; assumption|intros Hlt; apply Hf; lia].
Qed.

Lemma naive_find_post (m : mem) (p e : Z) : find_post m p e (naive_find m p e).
Proof.
  unfold naive_find.
  destruct (naive_scan_spec m (Z.to_nat (e - 3 - p)) p) as (Hq & Hn & Hf).
  cbv zeta in *. destruct (Z.ltb_spec (naive_scan (Z.to_nat (e - 3 - p)) m p) (e - 3)) as [Hlt|Hge].
  - left. repeat split; try lia; [apply Hf; lia|assumption].
  - right. split; [reflexivity|]. eapply no_sc3_weaken; [|eassumption]. lia.
Qed.

(** X3.  The three-phase scanner is a byte-by-byte search in disguise: on
    every buffer and from every position in it, it returns what the plain
    search over the positions below [end - 3] returns. *)
Theorem find_startcode_is_naive (fuel : nat) (m : mem) (p e : Z) :
  base m <= p -> e <= mem_end m -> (Z.to_nat (e - p) <= fuel)%nat ->
  h265_find_startcode fuel m p e = Done (naive_find m p e).
Proof.
  intros Hp He Hfuel.
  destruct (find_startcode_spec fuel m p e Hp He) as [[E F]|[r [E P]]]; [lia|].
  rewrite E. f_equal. eapply find_post_unique; [eassumption|apply naive_find_post].
Qed.

Lemma find_startcode_is_naive_witness :
  let m := mem_of 1001 [xaa; x00; x00; x00; x00; x01; x26; x01; x00; x00; x01; x40] in
  h265_find_startcode 12 m 1001 (mem_end m) = Done (naive_find m 1001 (mem_end m)).
Proof.
  intro m. apply (find_startcode_is_naive 12 m 1001 (mem_end m)); vm_compute;
    try discriminate. lia.
Defined.

Lemma find_post_shift (b : Z) (l : list byte) (be : bool) (k n r : Z) :
  find_post (Mem b l be) (b + k) (b + n) (b + r) <->
  find_post (Mem 0 l false) k n r.
Proof.
  unfold find_post, no_sc3. rewrite sc3_at_off. split.
  - intros [(H1 & H2 & H3 & H4)|[H1 H2]].
    + left. repeat split; try lia; try assumption.
      intros i Hi. rewrite <- (sc3_at_off b l be). apply H4. lia.
    + right. split; [lia|]. intros i Hi. rewrite <- (sc3_at_off b l be). apply H2. lia.
  - intros [(H1 & H2 & H3 & H4)|[H1 H2]].
    + left. repeat split; try lia; try assumption.
      intros i Hi. replace i with (b + (i - b)) by lia. rewrite sc3_at_off. apply H4. lia.
    + right. split; [lia|]. intros i Hi. replace i with (b + (i - b)) by lia.
      rewrite sc3_at_off. apply H2. lia.
Qed.

(** X4.  Where the buffer lies in memory (hence how its bytes fall on word
    boundaries) and the byte order of the machine do not matter: the same
    bytes scanned from the same offset give the same offset. *)
Theorem find_startcode_any_alignment (fuel : nat) (l : list byte)
    (b b' : Z) (be be' : bool) (k : Z) :
  0 <= k -> (length l <= fuel)%nat ->
  exists r : Z,
    h265_find_startcode fuel (Mem b l be) (b + k) (b + Z.of_nat (length l)) =
      Done (b + r) /\
    h265_find_startcode fuel (Mem b' l be') (b' + k) (b' + Z.of_nat (length l)) =
      Done (b' + r).
Proof.
  intros Hk Hfuel.
  destruct (find_startcode_spec fuel (Mem b l be) (b + k) (b + Z.of_nat (length l)))
    as [[E F]|[r1 [E1 P1]]]; [cbn [base]; lia|rewrite mem_end_Mem; lia|lia|].
  destruct (find_startcode_spec fuel (Mem b' l be') (b' + k) (b' + Z.of_nat (length l)))
    as [[E F]|[r2 [E2 P2]]]; [cbn [base]; lia|rewrite mem_end_Mem; lia|lia|].
  exists (r1 - b). rewrite E1, E2. split; [f_equal; lia|]. f_equal.
  replace r1 with (b + (r1 - b)) in P1 by lia.
  replace r2 with (b' + (r2 - b')) in P2 by lia.
  apply find_post_shift in P1. apply find_post_shift in P2.
  pose proof (find_post_unique _ _ _ _ _ P1 P2). lia.
Qed.

Lemma find_startcode_any_alignment_witness :
  let l := [xaa; x00; x00; x00; x00; x01; x26; x01; x00; x00; x01; x40] in
  exists r : Z,
    h265_find_startcode 12 (Mem 1000 l false) (1000 + 1) (1000 + Z.of_nat (length l)) =
      Done (1000 + r) /\
    h265_find_startcode 12 (Mem 4099 l true) (4099 + 1) (4099 + Z.of_nat (length l)) =
      Done (4099 + r).
Proof.
  intro l. apply (find_startcode_any_alignment 12 l 1000 4099 false true 1);
    [lia|vm_compute; lia].
Defined.

(** X5.  The search is stable: started again anywhere between the first
    position and the position it returned, it returns the same position. *)
Theorem find_startcode_restart (fuel : nat) (m : mem) (p p' e r : Z) :
  base m <= p -> e <= mem_end m -> (Z.to_nat (e - p) <= fuel)%nat ->
  h265_find_startcode fuel m p e = Done r ->
  p <= p' <= r ->
  h265_find_startcode fuel m p' e = Done r.
Proof.
  intros Hp He Hfuel E Hp'.
  destruct (find_startcode_spec fuel m p e Hp He) as [[E0 F]|[r0 [E0 P]]]; [lia|].
  rewrite E in E0. inversion E0; subst r0.
  destruct (find_startcode_spec fuel m p' e) as [[E1 F]|[r1 [E1 P1]]]; [lia|lia|lia|].
  rewrite E1. f_equal. eapply find_post_unique; [eassumption|].
  destruct P as [(H1 & H2 & H3 & H4)|[H1 H2]].
  - left. repeat split; try lia; try assumption. intros i Hi. apply H4. lia.
  - right. split; [assumption|]. intros i Hi. apply H2. lia.
Qed.

Lemma find_startcode_restart_witness :
  let m := mem_of 1001 [xaa; x00; x00; x00; x00; x01; x26; x01; x00; x00; x01; x40] in
  h265_find_startcode 12 m 1003 (mem_end m) = Done 1004.
Proof.
  intro m. apply (find_startcode_restart 12 m 1001 1003 (mem_end m) 1004);
    vm_compute; try discriminate; try reflexivity; try lia.
  split; discriminate.
Defined.

Lemma truncate_end (m : mem) (e : Z) :
  base m <= e <= mem_end m -> mem_end (truncate m e) = e.
Proof.
  intros He. unfold truncate. rewrite mem_end_Mem.
  unfold mem_end, mem_len in He.
  rewrite firstn_length_le by lia. lia.
Qed.

Lemma truncate_sc3_at (m : mem) (e i : Z) :
  base m <= e <= mem_end m -> i + 2 < e ->
  sc3_at (truncate m e) i = sc3_at m i.
Proof.
  intros He Hi. unfold sc3_at, in_bounds. rewrite truncate_end by assumption.
  cbn [truncate base].
  destruct (Z.leb_spec (base m) i) as [Hb|Hb]; cbn [andb]; [|reflexivity].
  destruct (Z.ltb_spec i e), (Z.ltb_spec i (mem_end m)); try lia.
  destruct (Z.leb_spec (base m) (i + 2)); try lia.
  destruct (Z.ltb_spec (i + 2) e), (Z.ltb_spec (i + 2) (mem_end m)); try lia.
  cbn [andb].
  assert (K : forall a, base m <= a < e -> byte_at (truncate m e) a = byte_at m a).
  { intros a Ha. unfold byte_at, truncate. cbn [base data]. f_equal.
    rewrite <- (firstn_skipn (Z.to_nat (e - base m)) (data m)) at 2.
    rewrite app_nth1; [reflexivity|].
    unfold mem_end, mem_len in He. rewrite firstn_length_le by lia. lia. }
  rewrite !K by lia. reflexivity.
Qed.

(** X6.  The bytes at and after [end] have no say: the scanner run up to
    [end] inside a longer buffer returns what it returns on the buffer cut
    off at [end], where any read at or after [end] would be a fault. *)
Theorem find_startcode_ignores_rest (fuel : nat) (m : mem) (p e : Z) :
  base m <= p -> base m <= e <= mem_end m -> (Z.to_nat (e - p) <= fuel)%nat ->
  h265_find_startcode fuel m p e = h265_find_startcode fuel (truncate m e) p e.
Proof.
  intros Hp He Hfuel.
  destruct (find_startcode_spec fuel m p e) as [[E F]|[r [E P]]]; [lia|lia|lia|].
  destruct (find_startcode_spec fuel (truncate m e) p e) as [[E' F]|[r' [E' P']]];
    [assumption|rewrite truncate_end by assumption; lia|lia|].
  rewrite E, E'. f_equal. eapply find_post_unique; [eassumption|].
  destruct P' as [(H1 & H2 & H3 & H4)|[H1 H2]].
  - left. repeat split; try lia.
    + rewrite <- (truncate_sc3_at m e) by lia. assumption.
    + intros i Hi. rewrite <- (truncate_sc3_at m e) by lia. apply H4. lia.
  - right. split; [assumption|]. intros i Hi.
    rewrite <- (truncate_sc3_at m e) by lia. apply H2. lia.
Qed.

Lemma find_startcode_ignores_rest_witness :
  let m := mem_of 1001 [xaa; x00; x00; x00; x00; x01; x26; x01; x00; x00; x01; x40] in
  h265_find_startcode 12 m 1001 1006 = h265_find_startcode 12 (truncate m 1006) 1001 1006.
Proof.
  intro m. apply (find_startcode_ignores_rest 12 m 1001 1006); vm_compute;
    try discriminate; try lia. split; discriminate.
Defined.

Lemma scan_bytes_fall (fuel : nat) (m : mem) (a e : Z) :
  forall p p1, scan_bytes fuel m p a e = Done (Fall p1) ->
  p <= a -> p1 <= a /\ ~ (p1 < a /\ p1 < e).
Proof.
  induction fuel as [|fuel IH]; intros p p1; cbn [scan_bytes];
    destruct (Z.ltb_spec p a) as [Ha|Ha]; destruct (Z.ltb_spec p e) as [He|He];
    cbn [andb]; intros E Hpa; try discriminate;
    try (inversion E; subst p1; lia).
  destruct (sc3_here m p) as [hit| |]; cbn [obind] in E; try discriminate.
  destruct hit; [discriminate|]. apply (IH (p + 1)); [assumption|lia].
Qed.

(** Where the first byte loop hands over below the bound of the word loop,
    the cursor is a multiple of 4. *)
Lemma handover_is_aligned (fuel : nat) (m : mem) (p e p1 : Z) :
  scan_bytes fuel m p (p + 4 - Z.land p 3) (e - 3) = Done (Fall p1) ->
  p1 < e - 3 - 3 ->
  p1 mod 4 = 0.
Proof.
  intros E Hlt.
  assert (Hland : Z.land p 3 = p mod 4) by (apply (Z.land_ones p 2); lia).
  pose proof (Z.mod_pos_bound p 4 ltac:(lia)) as Hm.
  destruct (scan_bytes_fall fuel m _ _ p p1 E) as [H1 H2]; [lia|].
  assert (p1 = p + 4 - p mod 4) by lia. subst p1.
  pose proof (Z.div_mod p 4 ltac:(lia)) as Hd.
  replace (p + 4 - p mod 4) with ((p / 4 + 1) * 4) by lia.
  apply Z.mod_mul. lia.
Qed.

(** The word loop started at a multiple of 4 loads at multiples of 4 only. *)
Lemma word_loads_aligned (m : mem) (e : Z) (fuel : nat) :
  forall p, p mod 4 = 0 -> Forall (fun a => a mod 4 = 0) (word_loads fuel m p e).
Proof.
  induction fuel as [|fuel IH]; intros p Hp; cbn [word_loads];
    destruct (p <? e); try constructor; try assumption.
  destruct (x <- load32 m p ;;
            if zero_byte_test x =? 0 then Done None else probe_word m p)
    as [[q|]| |]; try constructor.
  apply IH. replace (p + 4) with (p + 1 * 4) by lia.
  rewrite Z.mod_add by lia. assumption.
Qed.

(** [word_loads] counts the rounds of [scan_words]: a word loop that falls
    through has moved the cursor by 4 for each of the loads listed. *)
Lemma scan_words_loads (m : mem) (e : Z) (fuel : nat) :
  forall p p', scan_words fuel m p e = Done (Fall p') ->
  p' = p + 4 * Z.of_nat (length (word_loads fuel m p e)).
Proof.
  induction fuel as [|fuel IH]; intros p p'; cbn [scan_words word_loads];
    destruct (p <? e); try discriminate;
    try (intros E; inversion E; cbn [length Z.of_nat]; lia).
  destruct (load32 m p) as [x| |]; cbn [obind]; try discriminate.
  destruct (if zero_byte_test x =? 0 then Done None else probe_word m p)
    as [[q|]| |]; cbn [obind]; try discriminate.
  intros E. apply IH in E. cbn [length]. lia.
Qed.

(** X7.  Every 32-bit load of [h265_find_startcode] is at a 4-byte aligned
    address, whatever the buffer, its address and the position the search
    starts from: the first byte loop hands the cursor over at a multiple of
    4 whenever the word loop has a round to run, and each round moves the
    cursor by 4. *)
Theorem find_word_loads_aligned (fuel : nat) (m : mem) (p e : Z) :
  Forall (fun a => a mod 4 = 0) (find_word_loads fuel m p e).
Proof.
  unfold find_word_loads.
  destruct (scan_bytes fuel m p (p + 4 - Z.land p 3) (e - 3)) as [[q|p1]| |] eqn:E;
    try constructor.
  destruct (Z.lt_ge_cases p1 (e - 3 - 3)) as [Hlt|Hge].
  - apply word_loads_aligned. eapply handover_is_aligned; eassumption.
  - destruct fuel; cbn [word_loads]; destruct (Z.ltb_spec p1 (e - 3 - 3)); try lia;
      constructor.
Qed.

(** A search that starts at an odd address and runs the word loop twice. *)
Example find_word_loads_example :
  let m := mem_of 1001 [xaa; x01; x02; x03; x04; x05; x06; x07; x08; x09; x0a; x0b;
                        x0c; x0d; x0e; x0f] in
  find_word_loads 16 m 1001 (mem_end m) = [1004; 1008].
Proof. vm_compute. reflexivity. Qed.

(** ** More on one unit *)

Lemma fu_list_bytes (ts h0 h1 flen : Z) (n : nat) (h : Z) :
  forall buf,
  Forall (fun pk => hdr pk = [h0; h1; clear_start h])
         (fu_list n ts h0 h1 (clear_start h) buf flen).
Proof.
  induction n as [|n IH]; intros buf; cbn [fu_list]; constructor.
  - reflexivity.
  - rewrite clear_start_idem. apply IH.
Qed.




Section MoreOnUnits.

Context {codec : H26x}.

Lemma unit_packets_small (mk : bool) (ts : Z) (m : mem) (buf len maxlen : Z) :
  len <= maxlen -> unit_packets mk ts m buf len maxlen = [Packet mk ts [] buf len].
Proof.
  intros H. unfold unit_packets. destruct (Z.leb_spec len maxlen); [reflexivity|lia].
Qed.

Lemma unit_packets_undecoded (mk : bool) (ts : Z) (m : mem) (buf len maxlen : Z) :
  maxlen < len ->
  fst (h265_nal_decode (byte_at m buf) (byte_at m (buf + 1))) <> 0 ->
  unit_packets mk ts m buf len maxlen = [].
Proof.
  intros H Hd. unfold unit_packets. destruct (Z.leb_spec len maxlen); [lia|].
  destruct (h265_nal_decode (byte_at m buf) (byte_at m (buf + 1))) as [d nal].
  cbn [fst] in Hd. destruct (Z.eqb_spec d 0); [contradiction|reflexivity].
Qed.

(** The three shapes of [unit_packets]. *)
Lemma unit_packets_cases (mk : bool) (ts : Z) (m : mem) (buf len maxlen : Z) :
  3 < maxlen ->
  (len <= maxlen /\ unit_packets mk ts m buf len maxlen = [Packet mk ts [] buf len]) \/
  (maxlen < len /\ unit_packets mk ts m buf len maxlen = []) \/
  (maxlen < len /\ exists (nal : h265_nal) (n : nat) (h0 h1 : Z),
     (1 <= n)%nat /\
     0 < len - 2 - Z.of_nat n * (maxlen - 3) <= maxlen - 3 /\
     unit_packets mk ts m buf len maxlen =
       fu_list n ts h0 h1 (fu_first (nal_unit_type nal)) (buf + 2) (maxlen - 3) ++
       [Packet mk ts [h0; h1; set_end (clear_start (fu_first (nal_unit_type nal)))]
          (buf + 2 + Z.of_nat n * (maxlen - 3))
          (len - 2 - Z.of_nat n * (maxlen - 3))]).
Proof.
  intros Hmax. destruct (Z.le_gt_cases len maxlen) as [Hle|Hgt].
  - left. split; [assumption|apply unit_packets_small; assumption].
  - right.
    destruct (h265_nal_decode (byte_at m buf) (byte_at m (buf + 1))) as [d nal] eqn:Hdec.
    destruct (Z.eq_dec d 0) as [->|Hd].
    + right. split; [assumption|].
      destruct (unit_packets_fragmented mk ts m buf len maxlen nal)
        as (n & h0 & h1 & _ & Hn1 & Hn & Hu); [lia|assumption|].
      exists nal, n, h0, h1. repeat split; try assumption; lia.
    + left. split; [assumption|]. apply unit_packets_undecoded; [assumption|].
      rewrite Hdec. assumption.
Qed.

Lemma unit_packets_ts (mk : bool) (ts : Z) (m : mem) (buf len maxlen : Z) :
  3 < maxlen ->
  Forall (fun pk => rtp_ts pk = ts) (unit_packets mk ts m buf len maxlen).
Proof.
  intros Hmax.
  destruct (unit_packets_cases mk ts m buf len maxlen Hmax)
    as [[_ ->]|[[_ ->]|[_ (nal & n & h0 & h1 & _ & _ & ->)]]].
  - repeat constructor.
  - constructor.
  - apply Forall_app. split; [|repeat constructor].
    apply fu_list_forall. intros; reflexivity.
Qed.


End MoreOnUnits.

Lemma fu_both_bits (t : Z) :
  0 <= t < 64 ->
  Z.testbit (set_end (fu_first t)) 7 = true /\
  Z.testbit (set_end (fu_first t)) 6 = true /\
  Z.land (set_end (fu_first t)) 0x3f = t.
Proof.
  intros Ht.
  pose proof (below_64 (fun t => Z.testbit (set_end (fu_first t)) 7 &&
                                 Z.testbit (set_end (fu_first t)) 6 &&
                                 (Z.land (set_end (fu_first t)) 0x3f =? t))
                eq_refl t Ht) as H.
  cbv beta in H. rewrite !andb_true_iff, Z.eqb_eq in H. tauto.
Qed.

Section MoreOnPacketize.

Context {codec : H26x} {St : Type} {handler : Sink St}.

(** X8.  A unit that has to be fragmented and whose header decodes to a
    6-bit type is sent as at least two packets: the first with Start set and
    End clear, the last with End set and Start clear, those in between with
    both clear.  Only the last one is given the marker of the unit, and
    every packet repeats the same two first header bytes and carries the
    type of the unit in the low six bits of the third. *)
Theorem fragment_flags (fuel : nat) (mk : bool) (m : mem)
    (buf len maxlen ts : Z) (w : world St) (nal : h265_nal) :
  3 < maxlen < 2 ^ 64 -> maxlen < len < 2 ^ 64 ->
  base m <= buf -> buf + len <= mem_end m ->
  h265_nal_decode (byte_at m buf) (byte_at m (buf + 1)) = (0, nal) ->
  0 <= nal_unit_type nal < 64 ->
  (Z.to_nat len <= fuel)%nat ->
  let fu := h265_nal_encode H265_NAL_FU (nuh_temporal_id_plus1 nal) in
  exists (err : Z) (w' : world St) (cs : list (packet * Z))
         (first : packet) (middle : list packet) (last : packet),
    packetize fuel mk m buf len maxlen ts w = Done (err, w') /\
    sent w' = sent w ++ cs /\
    map fst cs = first :: middle ++ [last] /\
    (fu_start first = true /\ fu_end first = false) /\
    Forall (fun pk => fu_start pk = false /\ fu_end pk = false) middle /\
    (fu_start last = false /\ fu_end last = true) /\
    Forall (fun pk => marker pk = false) (first :: middle) /\
    marker last = mk /\
    Forall (fun pk => firstn 2 (hdr pk) = [fst fu; snd fu] /\
                      fu_type pk = nal_unit_type nal)
           (first :: middle ++ [last]).
Proof.
  intros Hmax Hlen Hb He Hdec Hty Hfuel fu.
  destruct (packetize_spec fuel mk m buf len maxlen ts w)
    as (err & w' & cs & E & Hs & Hm & _); [lia|lia|lia|assumption|].
  destruct (unit_packets_fragmented mk ts m buf len maxlen nal)
    as (n & h0 & h1 & Henc & Hn1 & Hn & Hu); [lia|assumption|].
  destruct n as [|n]; [lia|]. cbn [fu_list app] in Hu. rewrite Hu in Hm.
  destruct (fu_first_bits _ Hty) as (F7 & F6 & Ft).
  destruct (fu_middle_bits _ Hty) as (M7 & M6 & Mt).
  destruct (fu_last_bits _ Hty) as (L7 & L6 & Lt).
  subst fu. rewrite Henc. cbn [fst snd].
  pose proof (fu_list_bytes ts h0 h1 (maxlen - 3) n (fu_first (nal_unit_type nal))
                (buf + 2 + (maxlen - 3))) as Hmid.
  pose proof (fu_list_forall (fun pk => marker pk = false) ts h0 h1 (maxlen - 3) n
                (fun _ _ => eq_refl) (clear_start (fu_first (nal_unit_type nal)))
                (buf + 2 + (maxlen - 3))) as Hmk.
  do 6 eexists. split; [eassumption|]. split; [eassumption|]. split; [eassumption|].
  unfold fu_start, fu_end, fu_type, fu_byte. cbn [hdr marker nth].
  split; [split; assumption|]. split.
  { eapply Forall_impl; [|exact Hmid]. intros pk Hpk. rewrite Hpk. cbn [nth].
    split; assumption. }
  split; [split; assumption|]. split; [constructor; [reflexivity|assumption]|].
  split; [reflexivity|].
  constructor; [split; [reflexivity|assumption]|].
  apply Forall_app. split.
  - eapply Forall_impl; [|exact Hmid]. intros pk Hpk. rewrite Hpk. cbn [nth firstn].
    split; [reflexivity|assumption].
  - repeat constructor. assumption.
Qed.

(** X9.  The number of packets of a fragmented unit: one for every
    [maxlen - 3] bytes of the [len - 2] bytes after the unit header, rounded
    up, which is never less than two. *)
Theorem fragment_count (fuel : nat) (mk : bool) (m : mem)
    (buf len maxlen ts : Z) (w : world St) (nal : h265_nal) :
  3 < maxlen < 2 ^ 64 -> maxlen < len < 2 ^ 64 ->
  base m <= buf -> buf + len <= mem_end m ->
  h265_nal_decode (byte_at m buf) (byte_at m (buf + 1)) = (0, nal) ->
  (Z.to_nat len <= fuel)%nat ->
  exists (err : Z) (w' : world St) (cs : list (packet * Z)),
    packetize fuel mk m buf len maxlen ts w = Done (err, w') /\
    sent w' = sent w ++ cs /\
    Z.of_nat (length cs) = (len - 3) / (maxlen - 3) + 1 /\
    2 <= Z.of_nat (length cs).
Proof.
  intros Hmax Hlen Hb He Hdec Hfuel.
  destruct (packetize_spec fuel mk m buf len maxlen ts w)
    as (err & w' & cs & E & Hs & Hm & _); [lia|lia|lia|assumption|].
  destruct (unit_packets_fragmented mk ts m buf len maxlen nal)
    as (n & h0 & h1 & Henc & Hn1 & Hn & Hu); [lia|assumption|].
  exists err, w', cs. split; [assumption|]. split; [assumption|].
  assert (Hl : length cs = (n + 1)%nat).
  { rewrite <- (length_map fst cs), Hm, Hu, length_app, fu_list_length. reflexivity. }
  assert (Hq : (len - 3) / (maxlen - 3) = Z.of_nat n).
  { symmetry. apply Z.div_unique with (r := len - 3 - Z.of_nat n * (maxlen - 3)); lia. }
  rewrite Hl, Hq. lia.
Qed.

Lemma fu_loop_stuck (ts h0 h1 : Z) (fuel : nat) :
  forall (err buf len h2 : Z) (w : world St),
  0 < len < 2 ^ 64 -> fu_loop fuel ts h0 h1 0 err buf len h2 w = OutOfFuel.
Proof.
  induction fuel as [|fuel IH]; intros err buf len h2 w Hlen; cbn [fu_loop];
    destruct (Z.ltb_spec 0 len); try lia; [reflexivity|].
  destruct (call_pkth (Packet false ts [h0; h1; h2] buf 0) w) as [e w1].
  rewrite Z.sub_0_r, usize_small by lia. apply IH. assumption.
Qed.

(** X10.  With a limit of exactly 3 the fragmentation loop makes no
    progress: for a unit longer than 3 bytes whose header decodes, no amount
    of fuel lets [packetize] return. *)
Theorem packetize_limit_three (fuel : nat) (mk : bool) (m : mem)
    (buf len ts : Z) (w : world St) (nal : h265_nal) :
  3 < len < 2 ^ 64 -> base m <= buf -> buf + len <= mem_end m ->
  h265_nal_decode (byte_at m buf) (byte_at m (buf + 1)) = (0, nal) ->
  packetize fuel mk m buf len 3 ts w = OutOfFuel.
Proof.
  intros Hlen Hb He Hdec. unfold packetize.
  destruct (Z.leb_spec len 3); [lia|].
  rewrite !load8_ok by lia. cbn [obind]. rewrite Hdec. cbn [Z.eqb negb].
  destruct (h265_nal_encode H265_NAL_FU (nuh_temporal_id_plus1 nal)) as [h0 h1].
  change (usize (3 - 3)) with 0. rewrite usize_small by lia.
  rewrite fu_loop_stuck by lia. reflexivity.
Qed.

(** X11.  With a limit below 3 the payload size of a fragment wraps around
    and no fragment is cut: a unit of at least 2 bytes, longer than the
    limit, whose header decodes to a 6-bit type goes out whole, in one
    packet with Start and End both set that is longer than the limit:
    3 header bytes and [len - 2] payload bytes. *)
Theorem packetize_limit_below_three (fuel : nat) (mk : bool) (m : mem)
    (buf len maxlen ts : Z) (w : world St) (nal : h265_nal) :
  0 <= maxlen < 3 -> maxlen < len -> 2 <= len < 2 ^ 64 ->
  base m <= buf -> buf + len <= mem_end m ->
  h265_nal_decode (byte_at m buf) (byte_at m (buf + 1)) = (0, nal) ->
  0 <= nal_unit_type nal < 64 ->
  exists (e : Z) (w' : world St) (pk : packet),
    packetize fuel mk m buf len maxlen ts w = Done (e, w') /\
    sent w' = sent w ++ [(pk, e)] /\
    length (hdr pk) = 3%nat /\ pld pk = buf + 2 /\ pld_len pk = len - 2 /\
    fu_start pk = true /\ fu_end pk = true /\ marker pk = mk /\
    maxlen < Z.of_nat (length (hdr pk)) + pld_len pk.
Proof.
  intros Hmax Hgt Hlen Hb He Hdec Hty. unfold packetize.
  destruct (Z.leb_spec len maxlen); [lia|].
  rewrite !load8_ok by lia. cbn [obind]. rewrite Hdec. cbn [Z.eqb negb].
  destruct (h265_nal_encode H265_NAL_FU (nuh_temporal_id_plus1 nal)) as [h0 h1].
  assert (Hflen : usize (maxlen - 3) = 2 ^ 64 + (maxlen - 3)).
  { unfold usize. symmetry. apply Z.mod_unique with (q := -1); lia. }
  rewrite Hflen, usize_small by lia.
  destruct fuel as [|fuel]; cbn [fu_loop];
    (destruct (Z.ltb_spec (2 ^ 64 + (maxlen - 3)) (len - 2)); [lia|]); cbn [obind].
  all: destruct (fu_both_bits _ Hty) as (B7 & B6 & _).
  all: match goal with |- context [call_pkth ?p ?w0] =>
         pose proof (call_pkth_sent p w0) as Hs; destruct (call_pkth p w0) as [e w1];
         cbn [fst snd] in Hs; exists e, w1, p end.
  all: split; [reflexivity|]; split; [assumption|].
  all: unfold fu_start, fu_end, fu_byte; cbn [hdr pld pld_len marker nth length].
  all: repeat split; try assumption; lia.
Qed.

End MoreOnPacketize.

(** ** More on a whole call *)

Lemma lor_all_zero (l : list Z) : lor_all l = 0 <-> forall x, In x l -> x = 0.
Proof.
  induction l as [|y l IH]; cbn [lor_all fold_right In].
  - split; [intros _ x []|reflexivity].
  - fold (lor_all l). rewrite Z.lor_eq_0_iff, IH. split.
    + intros [Hy Hl] x [<-|Hx]; [assumption|apply Hl; assumption].
    + intros H. split; [apply H; left; reflexivity|intros x Hx; apply H; right; assumption].
Qed.

Section MoreOnUnitsOfBuffer.

Context {codec : H26x}.


Lemma packets_of_ts (ts : Z) (m : mem) (pktsize : Z) (us : list (Z * Z)) :
  3 < pktsize ->
  Forall (fun pk => rtp_ts pk = ts) (flat_map (packets_of ts m pktsize) us).
Proof.
  intros Hpk. induction us as [|u us IH]; cbn [flat_map]; [constructor|].
  apply Forall_app. split; [apply unit_packets_ts; assumption|assumption].
Qed.

End MoreOnUnitsOfBuffer.

Section MoreOnCalls.

Context {codec : H26x} {St : Type} {handler : Sink St}.

(** X12.  The timestamp of the call is handed on unchanged with every
    packet. *)
Theorem timestamp_on_every_packet (fuel : nat) (ts : Z) (m : mem) (pktsize : Z)
    (w : world St) :
  3 < pktsize < 2 ^ 64 -> mem_len m < 2 ^ 64 -> (Z.to_nat (mem_len m) <= fuel)%nat ->
  exists (err : Z) (w' : world St) (cs : list (packet * Z)),
    h265_packetize fuel ts m pktsize w = Done (err, w') /\
    sent w' = sent w ++ cs /\
    Forall (fun c => rtp_ts (fst c) = ts) cs.
Proof.
  intros Hpk Hlen Hfuel.
  destruct (h265_packetize_spec fuel ts m pktsize w Hpk Hlen Hfuel)
    as (us & err & w' & cs & Hus & E & Hs & Hm & He).
  exists err, w', cs. split; [assumption|]. split; [assumption|].
  pose proof (packets_of_ts ts m pktsize us ltac:(lia)) as F.
  rewrite <- Hm in F. rewrite Forall_map in F. assumption.
Qed.

(** X13.  A buffer in which no start code is followed by a byte (an empty
    buffer, a buffer of fewer than four bytes, a buffer without [00 00 01])
    holds no unit: the handler is not called and the call returns 0,
    whatever the packet size limit. *)
Theorem no_startcode_no_packet (fuel : nat) (ts : Z) (m : mem) (pktsize : Z)
    (w : world St) :
  (forall i, base m <= i -> i + 3 < mem_end m -> sc3_at m i = false) ->
  (Z.to_nat (mem_len m) <= fuel)%nat ->
  h265_packetize fuel ts m pktsize w = Done (0, w).
Proof.
  intros Hno Hfuel. unfold h265_packetize. fold (mem_end m).
  assert (Hlen0 : 0 <= mem_len m) by (unfold mem_len; lia).
  destruct (find_startcode_spec fuel m (base m) (mem_end m)) as [[E F]|[q [E P]]];
    [lia|lia|unfold mem_end in F; lia|].
  rewrite E. cbn [obind].
  destruct P as [(H1 & H2 & H3 & H4)|[-> _]].
  - rewrite Hno in H3 by lia. discriminate.
  - destruct fuel; cbn [nal_loop]; rewrite Z.ltb_irrefl; reflexivity.
Qed.

(** X14.  A call returns 0 exactly when the handler returned 0 for every
    packet and no unit that had to be fragmented failed to decode. *)
Theorem result_zero_iff (fuel : nat) (ts : Z) (m : mem) (pktsize : Z) (w : world St) :
  3 < pktsize < 2 ^ 64 -> mem_len m < 2 ^ 64 -> (Z.to_nat (mem_len m) <= fuel)%nat ->
  exists (us : list (Z * Z)) (err : Z) (w' : world St) (cs : list (packet * Z)),
    nal_units m us /\
    h265_packetize fuel ts m pktsize w = Done (err, w') /\
    sent w' = sent w ++ cs /\
    (err = 0 <->
     (forall (pk : packet) (e : Z), In (pk, e) cs -> e = 0) /\
     (forall u : Z * Z, In u us -> error_of m pktsize u = 0)).
Proof.
  intros Hpk Hlen Hfuel.
  destruct (h265_packetize_spec fuel ts m pktsize w Hpk Hlen Hfuel)
    as (us & err & w' & cs & Hus & E & Hs & Hm & He).
  exists us, err, w', cs. repeat (split; [assumption|]).
  rewrite He, Z.lor_eq_0_iff, !lor_all_zero. split.
  - intros [Hu Hc]. split.
    + intros pk e Hin. apply Hc. change e with (snd (pk, e)). apply in_map. assumption.
    + intros u Hin. apply Hu. apply in_map. assumption.
  - intros [Hc Hu]. split.
    + intros x Hx. apply in_map_iff in Hx. destruct Hx as (u & <- & Hin). apply Hu. assumption.
    + intros x Hx. apply in_map_iff in Hx. destruct Hx as ([pk e] & <- & Hin).
      cbn [snd]. apply (Hc pk). assumption.
Qed.


End MoreOnCalls.

Section TwoHandlers.

Context {codec : H26x} {St1 St2 : Type} {handler1 : Sink St1} {handler2 : Sink St2}.

(** X15.  Which packets are sent, and in which order, does not depend on
    the handler: two calls on the same buffer with different handlers, in
    whatever state and returning whatever they like, are handed the same
    packets. *)
Theorem packets_do_not_depend_on_handler (fuel : nat) (ts : Z) (m : mem) (pktsize : Z)
    (w1 : world St1) (w2 : world St2) :
  3 < pktsize < 2 ^ 64 -> mem_len m < 2 ^ 64 -> (Z.to_nat (mem_len m) <= fuel)%nat ->
  exists (err1 err2 : Z) (w1' : world St1) (w2' : world St2)
         (cs1 cs2 : list (packet * Z)),
    h265_packetize (handler := handler1) fuel ts m pktsize w1 = Done (err1, w1') /\
    h265_packetize (handler := handler2) fuel ts m pktsize w2 = Done (err2, w2') /\
    sent w1' = sent w1 ++ cs1 /\ sent w2' = sent w2 ++ cs2 /\
    map fst cs1 = map fst cs2.
Proof.
  intros Hpk Hlen Hfuel.
  destruct (h265_packetize_spec (handler := handler1) fuel ts m pktsize w1 Hpk Hlen Hfuel)
    as (us1 & err1 & w1' & cs1 & Hus1 & E1 & Hs1 & Hm1 & _).
  destruct (h265_packetize_spec (handler := handler2) fuel ts m pktsize w2 Hpk Hlen Hfuel)
    as (us2 & err2 & w2' & cs2 & Hus2 & E2 & Hs2 & Hm2 & _).
  exists err1, err2, w1', w2', cs1, cs2. repeat (split; [assumption|]).
  rewrite Hm1, Hm2. f_equal. eapply nal_units_unique; eassumption.
Qed.

End TwoHandlers.

Lemma no_startcode_no_packet_witness :
  let m := mem_of 1000 [xaa; xbb; xcc] in
  h265_packetize (codec := spec_codec) (handler := ok_sink) 3 90000 m 1500 (World tt [])
  = Done (0, World tt []).
Proof.
  intro m.
  apply (no_startcode_no_packet (codec := spec_codec) (handler := ok_sink)
           3 90000 m 1500 (World tt [])); [|vm_compute; lia].
  intros i Hl Hh. change (mem_end m) with 1003 in Hh. change (base m) with 1000 in Hl. lia.
Defined.


(** ** Two units separated by a four-byte start code *)

Lemma byte_at_app1 (b : Z) (l1 l2 : list byte) (be : bool) (i : Z) :
  0 <= i < Z.of_nat (length l1) ->
  byte_at (Mem b (l1 ++ l2) be) (b + i) = byte_val (nth (Z.to_nat i) l1 x00).
Proof.
  intros Hi. rewrite byte_at_off, app_nth1 by lia. reflexivity.
Qed.




Section FourByteStartCode.

Context {codec : H26x} {St : Type} {handler : Sink St}.


End FourByteStartCode.

(** X18.  With fewer than four bytes between [p] and [end] the scanner
    returns [end] at once: no loop is entered and no byte is read, whatever
    the two pointers point to. *)
Theorem find_startcode_short (fuel : nat) (m : mem) (p e : Z) :
  e - p < 4 -> h265_find_startcode fuel m p e = Done e.
Proof.
  intros H. unfold h265_find_startcode.
  assert (E1 : forall a, scan_bytes fuel m p a (e - 3) = Done (Fall p)).
  { intros a. destruct fuel; cbn [scan_bytes];
      destruct (Z.ltb_spec p (e - 3)); try lia; rewrite andb_false_r; reflexivity. }
  rewrite E1. cbn [obind].
  assert (E2 : scan_words fuel m p (e - 3 - 3) = Done (Fall p)).
  { destruct fuel; cbn [scan_words]; destruct (Z.ltb_spec p (e - 3 - 3)); try lia;
      reflexivity. }
  rewrite E2. cbn [obind].
  assert (E3 : scan_bytes fuel m p (e - 3 - 3 + 3) (e - 3 - 3 + 3) = Done (Fall p)).
  { destruct fuel; cbn [scan_bytes];
      destruct (Z.ltb_spec p (e - 3 - 3 + 3)); try lia; reflexivity. }
  rewrite E3. cbn [obind]. f_equal. lia.
Qed.

Lemma find_startcode_short_witness :
  h265_find_startcode 0 (mem_of 1000 [x00; x00; x01]) 1000 1003 = Done 1003.
Proof.
  apply (find_startcode_short 0 (mem_of 1000 [x00; x00; x01]) 1000 1003). lia.
Defined.

(** ** The further theorems at concrete inputs *)

Lemma fragment_flags_witness :
  let m := mem_of 1000 [x26; x01; xa1; xa2; xa3; xa4; xa5; xa6; xa7; xa8] in
  let fu := h265_nal_encode (H26x := spec_codec) 49 1 in
  exists (err : Z) (w' : world unit) (cs : list (packet * Z))
         (first : packet) (middle : list packet) (last : packet),
    packetize (codec := spec_codec) (handler := ok_sink)
      10 true m 1000 10 5 90000 (World tt []) = Done (err, w') /\
    sent w' = [] ++ cs /\
    map fst cs = first :: middle ++ [last] /\
    (fu_start first = true /\ fu_end first = false) /\
    Forall (fun pk => fu_start pk = false /\ fu_end pk = false) middle /\
    (fu_start last = false /\ fu_end last = true) /\
    Forall (fun pk => marker pk = false) (first :: middle) /\
    marker last = true /\
    Forall (fun pk => firstn 2 (hdr pk) = [fst fu; snd fu] /\ fu_type pk = 19)
           (first :: middle ++ [last]).
Proof.
  intros m fu.
  apply (fragment_flags (codec := spec_codec) (handler := ok_sink)
           10 true m 1000 10 5 90000 (World tt []) (Nal 19 1)).
  - lia.
  - lia.
  - vm_compute. discriminate.
  - vm_compute. discriminate.
  - reflexivity.
  - cbn [nal_unit_type]. lia.
  - lia.
Defined.

Lemma fragment_count_witness :
  let m := mem_of 1000 [x26; x01; xa1; xa2; xa3; xa4; xa5; xa6; xa7; xa8] in
  exists (err : Z) (w' : world unit) (cs : list (packet * Z)),
    packetize (codec := spec_codec) (handler := ok_sink)
      10 true m 1000 10 5 90000 (World tt []) = Done (err, w') /\
    sent w' = [] ++ cs /\
    Z.of_nat (length cs) = (10 - 3) / (5 - 3) + 1 /\
    2 <= Z.of_nat (length cs).
Proof.
  intro m.
  apply (fragment_count (codec := spec_codec) (handler := ok_sink)
           10 true m 1000 10 5 90000 (World tt []) (Nal 19 1)).
  - lia.
  - lia.
  - vm_compute. discriminate.
  - vm_compute. discriminate.
  - reflexivity.
  - lia.
Defined.

Lemma packetize_limit_three_witness :
  let m := mem_of 1000 [x26; x01; xa1; xa2; xa3; xa4; xa5; xa6; xa7; xa8] in
  packetize (codec := spec_codec) (handler := ok_sink)
    1000 true m 1000 10 3 90000 (World tt []) = OutOfFuel.
Proof.
  intro m.
  apply (packetize_limit_three (codec := spec_codec) (handler := ok_sink)
           1000 true m 1000 10 90000 (World tt []) (Nal 19 1)).
  - lia.
  - vm_compute. discriminate.
  - vm_compute. discriminate.
  - reflexivity.
Defined.

Lemma packetize_limit_below_three_witness :
  let m := mem_of 1000 [x26; x01; xa1; xa2; xa3; xa4; xa5; xa6; xa7; xa8] in
  exists (e : Z) (w' : world unit) (pk : packet),
    packetize (codec := spec_codec) (handler := ok_sink)
      0 true m 1000 10 2 90000 (World tt []) = Done (e, w') /\
    sent w' = [] ++ [(pk, e)] /\
    length (hdr pk) = 3%nat /\ pld pk = 1000 + 2 /\ pld_len pk = 10 - 2 /\
    fu_start pk = true /\ fu_end pk = true /\ marker pk = true /\
    2 < Z.of_nat (length (hdr pk)) + pld_len pk.
Proof.
  intro m.
  apply (packetize_limit_below_three (codec := spec_codec) (handler := ok_sink)
           0 true m 1000 10 2 90000 (World tt []) (Nal 19 1)).
  - lia.
  - lia.
  - lia.
  - vm_compute. discriminate.
  - vm_compute. discriminate.
  - reflexivity.
  - cbn [nal_unit_type]. lia.
Defined.

Lemma timestamp_on_every_packet_witness :
  let m := mem_of 1000 [x00; x00; x01; x26; x01; xa1; xa2; xa3; xa4; xa5; xa6] in
  exists (err : Z) (w' : world unit) (cs : list (packet * Z)),
    h265_packetize (codec := spec_codec) (handler := ok_sink)
      11 90000 m 5 (World tt []) = Done (err, w') /\
    sent w' = [] ++ cs /\
    Forall (fun c => rtp_ts (fst c) = 90000) cs.
Proof.
  intro m.
  apply (timestamp_on_every_packet (codec := spec_codec) (handler := ok_sink)
           11 90000 m 5 (World tt [])); [lia|vm_compute; reflexivity|vm_compute; lia].
Defined.

Lemma result_zero_iff_witness :
  let m := mem_of 1000 [x00; x00; x01; xa6; x01; x11; x22; x33; x44; x55;
                        x00; x00; x01; x26; x01; xaa] in
  exists (us : list (Z * Z)) (err : Z) (w' : world nat) (cs : list (packet * Z)),
    nal_units m us /\
    h265_packetize (codec := strict_codec) (handler := flaky_sink)
      16 90000 m 4 (World 0%nat []) = Done (err, w') /\
    sent w' = [] ++ cs /\
    (err = 0 <->
     (forall (pk : packet) (e : Z), In (pk, e) cs -> e = 0) /\
     (forall u : Z * Z, In u us -> error_of (codec := strict_codec) m 4 u = 0)).
Proof.
  intro m.
  apply (result_zero_iff (codec := strict_codec) (handler := flaky_sink)
           16 90000 m 4 (World 0%nat [])); [lia|vm_compute; reflexivity|vm_compute; lia].
Defined.

Lemma packets_do_not_depend_on_handler_witness :
  let m := mem_of 1000 [x00; x00; x01; x26; x01; xa1; xa2; xa3; xa4; xa5; xa6] in
  exists (err1 err2 : Z) (w1' : world unit) (w2' : world nat)
         (cs1 cs2 : list (packet * Z)),
    h265_packetize (codec := spec_codec) (handler := ok_sink)
      11 90000 m 5 (World tt []) = Done (err1, w1') /\
    h265_packetize (codec := spec_codec) (handler := flaky_sink)
      11 90000 m 5 (World 0%nat []) = Done (err2, w2') /\
    sent w1' = [] ++ cs1 /\ sent w2' = [] ++ cs2 /\
    map fst cs1 = map fst cs2.
Proof.
  intro m.
  apply (packets_do_not_depend_on_handler (codec := spec_codec)
           (handler1 := ok_sink) (handler2 := flaky_sink)
           11 90000 m 5 (World tt []) (World 0%nat []));
    [lia|vm_compute; reflexivity|vm_compute; lia].
Defined.



Section EmptyUnit.

Context {codec : H26x} {St : Type} {handler : Sink St}.

(** X19.  Two start codes in a row delimit an empty unit, and the empty
    unit is sent like any other: for a buffer [00 00 01 00 00 01 u], where
    [u] is not empty, holds no start code and fits the limit, the handler
    is first called with a payload of length 0, without the marker, and
    then with the payload [u] and the marker. *)
Theorem empty_unit_empty_packet (fuel : nat) (ts b : Z) (be : bool)
    (u : list byte) (pktsize : Z) (w : world St) :
  contains_sc3 u = false -> u <> [] ->
  3 < pktsize < 2 ^ 64 -> Z.of_nat (length u) <= pktsize ->
  let m := Mem b ([x00; x00; x01; x00; x00; x01] ++ u) be in
  mem_len m < 2 ^ 64 -> (Z.to_nat (mem_len m) <= fuel)%nat ->
  exists (e1 e2 : Z) (w' : world St) (p1 p2 : packet),
    h265_packetize fuel ts m pktsize w = Done (Z.lor e1 e2, w') /\
    sent w' = sent w ++ [(p1, e1); (p2, e2)] /\
    hdr p1 = [] /\ marker p1 = false /\ pld_len p1 = 0 /\ payload m p1 = [] /\
    hdr p2 = [] /\ marker p2 = true /\ payload m p2 = u.
Proof.
  intros Hu Hne Hpk Hl m Hlen Hfuel.
  set (n := Z.of_nat (length u)) in *.
  assert (Hn : 1 <= n) by (subst n; destruct u; [contradiction|cbn [length]; lia]).
  assert (Hend : mem_end m = b + 6 + n).
  { subst m n. rewrite mem_end_Mem, length_app. cbn [length]. lia. }
  assert (S0 : sc3_at m b = true).
  { apply (sc3_at_bytes m b (b + 1) (b + 2)); rewrite ?Hend; try (cbn; lia).
    subst m. replace b with (b + 0) at 2 by lia. rewrite !byte_at_off. repeat split. }
  assert (S1 : sc3_at m (b + 3) = true).
  { apply (sc3_at_bytes m (b + 3) (b + 4) (b + 5)); rewrite ?Hend; try (cbn; lia).
    subst m. rewrite !byte_at_off. repeat split. }
  assert (N2 : no_sc3 m (b + 3 + 3) (mem_end m - 3)).
  { apply no_sc3_weaken with (q := mem_end m - 2); [lia|]. subst m.
    replace (b + 3 + 3)
      with (b + Z.of_nat (length [x00; x00; x01; x00; x00; x01])) by (cbn [length]; lia).
    apply no_sc3_tail. assumption. }
  assert (Hus : nal_units m [(b + 3, b + 3); (b + 3 + 3, mem_end m)]).
  { exists b. change (base m) with b. rewrite Hend in N2 |- *. split.
    - left. repeat split; try assumption; try lia. intros i Hi. lia.
    - apply units_next; [lia|assumption| |].
      + left. repeat split; try assumption; try lia. intros i Hi. lia.
      + apply units_next; [lia|assumption| |apply units_end; lia].
        right. split; [reflexivity|assumption]. }
  destruct (h265_packetize_spec fuel ts m pktsize w Hpk Hlen Hfuel)
    as (us & err & w' & cs & Hus' & E & Hs & Hm & He).
  assert (us = [(b + 3, b + 3); (b + 3 + 3, mem_end m)])
    by (eapply nal_units_unique; eassumption). subst us.
  cbn [flat_map map lor_all fold_right] in Hm, He.
  unfold packets_of, error_of, unit_decode_error in Hm, He. cbn [fst snd] in Hm, He.
  rewrite !unit_packets_small in Hm by lia.
  destruct (Z.leb_spec (b + 3 - (b + 3)) pktsize); [|lia].
  destruct (Z.leb_spec (mem_end m - (b + 3 + 3)) pktsize); [|lia].
  destruct (Z.leb_spec (mem_end m) (b + 3)); [lia|].
  rewrite Z.leb_refl in Hm. cbn [app] in Hm.
  destruct cs as [|[p1 e1] [|[p2 e2] [|c cs]]]; try discriminate.
  cbn [map fst snd lor_all fold_right] in Hm, He.
  inversion Hm as [[Hp1 Hp2]]. clear Hm.
  exists e1, e2, w', p1, p2.
  split; [rewrite E, He, (Z.lor_0_r e2); reflexivity|]. split; [assumption|].
  subst p1 p2. cbn [hdr marker pld_len]. repeat split; try lia.
  - unfold payload, bytes. cbn [pld pld_len].
    replace (b + 3 - (b + 3)) with 0 by lia. reflexivity.
  - unfold payload, bytes. cbn [pld pld_len]. rewrite Hend. subst m. cbn [base data].
    replace (b + 3 + 3 - b) with 6 by lia. change (Z.to_nat 6) with 6%nat.
    cbn [skipn app].
    replace (Z.to_nat (b + 6 + n - (b + 3 + 3))) with (length u) by lia.
    apply firstn_all.
Qed.

End EmptyUnit.

Lemma empty_unit_empty_packet_witness :
  let m := Mem 1000 ([x00; x00; x01; x00; x00; x01] ++ [x26; x01; xaa]) false in
  exists (e1 e2 : Z) (w' : world unit) (p1 p2 : packet),
    h265_packetize (codec := spec_codec) (handler := ok_sink)
      9 90000 m 1500 (World tt []) = Done (Z.lor e1 e2, w') /\
    sent w' = [] ++ [(p1, e1); (p2, e2)] /\
    hdr p1 = [] /\ marker p1 = false /\ pld_len p1 = 0 /\ payload m p1 = [] /\
    hdr p2 = [] /\ marker p2 = true /\ payload m p2 = [x26; x01; xaa].
Proof.
  intro m.
  apply (empty_unit_empty_packet (codec := spec_codec) (handler := ok_sink)
           9 90000 1000 false [x26; x01; xaa] 1500 (World tt [])).
  - reflexivity.
  - discriminate.
  - lia.
  - cbn [length]. lia.
  - vm_compute. reflexivity.
  - vm_compute. lia.
Defined.
